(** * create_app.py: provisioning of an OAuth application registration

    A shallow embedding of [src/create_app.py] and the properties of its
    workflow.  The script talks to two outside parties, the token provider
    (msal) and the HTTP client (requests); both are fields of a [Runtime]
    record acting on an abstract world, and every function of the script
    becomes a computation that threads that world, may raise a Python
    exception, and emits the events (token requests, HTTP requests, printed
    lines) it causes, in order. *)

From Stdlib Require Import List ZArith NArith Bool Lia String Ascii.
From Stdlib Require Import DecimalString.
Import ListNotations.

Set Implicit Arguments.

(* ================================================================== *)
(** ** Python strings *)

(** A Python [str] is a sequence of Unicode code points. *)
Definition pystr := list N.

(** A string literal of the source (its characters are all ASCII). *)
Definition lit (s : string) : pystr :=
  map N_of_ascii (list_ascii_of_string s).

Fixpoint pystr_eqb (s t : pystr) : bool :=
  match s, t with
  | [], [] => true
  | c :: s', d :: t' => N.eqb c d && pystr_eqb s' t'
  | _, _ => false
  end.

(** [str(n)] for an [int]. *)
Definition str_of_int (z : Z) : pystr :=
  lit (NilZero.string_of_int (Z.to_int z)).

(** [str.isspace] on one code point: the characters Python's [strip()]
    removes. *)
Definition isspace (c : N) : bool :=
  ((9 <=? c) && (c <=? 13) || (28 <=? c) && (c <=? 32)
   || (c =? 133) || (c =? 160) || (c =? 5760)
   || (8192 <=? c) && (c <=? 8202)
   || (c =? 8232) || (c =? 8233) || (c =? 8239) || (c =? 8287)
   || (c =? 12288))%N.

Fixpoint lstrip (s : pystr) : pystr :=
  match s with
  | c :: s' => if isspace c then lstrip s' else s
  | [] => []
  end.

Definition rstrip (s : pystr) : pystr := rev (lstrip (rev s)).

(** [s.strip()] *)
Definition strip (s : pystr) : pystr := rstrip (lstrip s).

(** [s.split(sep)] for a one-character separator: never the empty list,
    [''.split(',')] is [['']]. *)
Fixpoint split (sep : N) (s : pystr) : list pystr :=
  match s with
  | [] => [[]]
  | c :: s' =>
      if N.eqb c sep then [] :: split sep s'
      else match split sep s' with
           | piece :: rest => (c :: piece) :: rest
           | [] => [[c]]
           end
  end.

(** [sep.join(l)] for a one-character separator. *)
Fixpoint join (sep : N) (l : list pystr) : pystr :=
  match l with
  | [] => []
  | [p] => p
  | p :: l' => p ++ sep :: join sep l'
  end.

Definition comma : N := 44.
Definition quote : N := 39.

(* ================================================================== *)
(** ** Python values and exceptions *)

(** The values the script handles: what [os.environ.get] and JSON decoding
    produce and what JSON encoding consumes.  A dict is an association list
    in insertion order; numbers are the integers (the script reads no
    fractional number). *)
#[warnings="-register-all"]
Inductive pyval : Type :=
| PNone
| PBool (b : bool)
| PInt (z : Z)
| PStr (s : pystr)
| PList (l : list pyval)
| PDict (d : list (pystr * pyval)).

Definition dict := list (pystr * pyval).

Inductive exn : Type :=
| Exception (arg : pyval)        (* raise Exception(arg) *)
| KeyError (key : pyval)
| IndexError
| TypeError
| AttributeError
| JSONDecodeError
| LibraryError (name : pystr).   (* raised inside msal or requests *)

Inductive result (A : Type) : Type :=
| Ok (a : A)
| Err (e : exn).
Arguments Ok {A} a.
Arguments Err {A} e.

Fixpoint dict_lookup (k : pystr) (d : dict) : option pyval :=
  match d with
  | [] => None
  | (k', v) :: d' => if pystr_eqb k k' then Some v else dict_lookup k d'
  end.

(** [k in d] *)
Definition dict_mem (k : pystr) (d : dict) : bool :=
  match dict_lookup k d with Some _ => true | None => false end.

(** Truth value of an object, as [if x:] and [not x] test it. *)
Definition truthy (v : pyval) : bool :=
  match v with
  | PNone => false
  | PBool b => b
  | PInt z => negb (Z.eqb z 0)
  | PStr s => match s with [] => false | _ => true end
  | PList l => match l with [] => false | _ => true end
  | PDict d => match d with [] => false | _ => true end
  end.

(** [v[k]] *)
Definition subscript (v k : pyval) : result pyval :=
  match v, k with
  | PDict d, PStr s =>
      match dict_lookup s d with Some x => Ok x | None => Err (KeyError k) end
  | PDict _, _ => Err (KeyError k)
  | PList l, PInt i =>
      let j := if (i <? 0)%Z then (i + Z.of_nat (List.length l))%Z else i in
      if (j <? 0)%Z then Err IndexError
      else match nth_error l (Z.to_nat j) with
           | Some x => Ok x
           | None => Err IndexError
           end
  | PStr s, PInt i =>
      let j := if (i <? 0)%Z then (i + Z.of_nat (List.length s))%Z else i in
      if (j <? 0)%Z then Err IndexError
      else match nth_error s (Z.to_nat j) with
           | Some c => Ok (PStr [c])
           | None => Err IndexError
           end
  | _, _ => Err TypeError
  end.

(** [v.get(k, default)]: only a dict has the method. *)
Definition get_default (v : pyval) (k : pystr) (default : pyval) : result pyval :=
  match v with
  | PDict d =>
      match dict_lookup k d with Some x => Ok x | None => Ok default end
  | _ => Err AttributeError
  end.

(* ================================================================== *)
(** ** The outside world *)

(** What is handed to [requests.request]. *)
Record Request : Type := mkRequest {
  req_method : pystr;
  req_url : pystr;
  req_headers : list (pystr * pystr);
  req_json : option pyval;
  req_params : option (list (pystr * pystr))
}.

(** What the script reads of a [requests.Response]: the attributes [ok],
    [status_code] and [text], and the outcome of the method [json()]. *)
Record Response : Type := mkResponse {
  ok : bool;
  status_code : Z;
  text : pystr;
  json : result pyval
}.

(** The arguments of the msal client and of [acquire_token_for_client]. *)
Record TokenRequest : Type := mkTokenRequest {
  tok_client_id : pyval;
  tok_client_secret : pyval;
  tok_authority : pystr;
  tok_scopes : list pystr
}.

Inductive Event : Type :=
| EvToken (t : TokenRequest)
| EvHttp (r : Request)
| EvPrint (line : pystr).

(** What the script runs on, over a world of type [World]: the process
    environment, the two libraries, and the interpreter's [repr] of
    containers.  Either library call may raise. *)
Record Runtime (World : Type) : Type := mkRuntime {
  os_environ : pystr -> option pystr;
  acquire_token_for_client : TokenRequest -> World -> result dict * World;
  requests_request : Request -> World -> result Response * World;
  container_repr : pyval -> pystr
}.

(** The outcome of a computation: its result, the world it leaves and the
    events it emitted. *)
Record Outcome (World A : Type) : Type := mkOutcome {
  res : result A;
  world : World;
  events : list Event
}.

Definition http_requests (evs : list Event) : list Request :=
  flat_map (fun e => match e with EvHttp r => [r] | _ => [] end) evs.

Definition printed (evs : list Event) : list pystr :=
  flat_map (fun e => match e with EvPrint l => [l] | _ => [] end) evs.

(* ================================================================== *)
(** ** The script *)

Section Script.

Variable World : Type.
Variable rt : Runtime World.

(** *** Computations *)

Definition M (A : Type) : Type := World -> Outcome World A.

Definition ret {A} (a : A) : M A := fun w => mkOutcome (Ok a) w [].

Definition raise {A} (e : exn) : M A := fun w => mkOutcome (Err e) w [].

Definition bind {A B} (m : M A) (f : A -> M B) : M B := fun w =>
  match m w with
  | mkOutcome (Ok a) w1 ev1 =>
      match f a w1 with
      | mkOutcome r w2 ev2 => mkOutcome r w2 (ev1 ++ ev2)
      end
  | mkOutcome (Err e) w1 ev1 => mkOutcome (Err e) w1 ev1
  end.

Definition lift {A} (r : result A) : M A :=
  match r with Ok a => ret a | Err e => raise e end.

Notation "x <- m ;; k" := (bind m (fun x => k))
  (at level 100, m at next level, right associativity).
Notation "m ;; k" := (bind m (fun _ => k))
  (at level 100, right associativity).

(** *** Built-ins *)

(** [str(v)], as an f-string and [print] apply it. *)
Definition py_str (v : pyval) : pystr :=
  match v with
  | PStr s => s
  | PNone => lit "None"
  | PBool true => lit "True"
  | PBool false => lit "False"
  | PInt z => str_of_int z
  | _ => container_repr rt v
  end.

Fixpoint join_space (l : list pystr) : pystr :=
  match l with
  | [] => []
  | [s] => s
  | s :: l' => s ++ lit " " ++ join_space l'
  end.

(** [print(a, b, ...)]: one line on standard output. *)
Definition print (args : list pyval) : M unit := fun w =>
  mkOutcome (Ok tt) w [EvPrint (join_space (map py_str args))].

(** [os.environ.get(k)] *)
Definition os_environ_get (k : pystr) : pyval :=
  match os_environ rt k with Some s => PStr s | None => PNone end.

(** [os.environ.get(k, default)] with a [str] default. *)
Definition os_environ_get_default (k default : pystr) : pystr :=
  match os_environ rt k with Some s => s | None => default end.

(** The msal client built from the configuration, then
    [app.acquire_token_for_client(scopes)]. *)
Definition msal_acquire (t : TokenRequest) : M dict := fun w =>
  let (r, w') := acquire_token_for_client rt t w in
  mkOutcome r w' [EvToken t].

(** [requests.request(method, url, headers=, json=, params=)] *)
Definition http (rq : Request) : M Response := fun w =>
  let (r, w') := requests_request rt rq w in
  mkOutcome r w' [EvHttp rq].

(** [requests.post(url, headers=, json=)]: a POST without query
    parameters. *)
Definition requests_post (url : pystr) (headers : list (pystr * pystr))
    (body : pyval) : M Response :=
  http (mkRequest (lit "POST") url headers (Some body) None).

(** *** Module-level configuration (lines 21-26) *)

Definition TENANT_ID : pyval := os_environ_get (lit "TENANT_ID").
Definition CLIENT_ID : pyval := os_environ_get (lit "CLIENT_ID").
Definition CLIENT_SECRET : pyval := os_environ_get (lit "CLIENT_SECRET").

Definition GRAPH_SCOPE : list pystr := [lit "https://graph.microsoft.com/.default"].
Definition GRAPH_BASE : pystr := lit "https://graph.microsoft.com/v1.0".

(** *** Helpers (lines 29-48) *)

Definition token_request : TokenRequest :=
  mkTokenRequest CLIENT_ID CLIENT_SECRET
    (lit "https://login.microsoftonline.com/" ++ py_str TENANT_ID)
    GRAPH_SCOPE.

Definition get_token : M pyval :=
  resp <- msal_acquire token_request ;;
  if negb (dict_mem (lit "access_token") resp)
  then raise (Exception (PDict resp))
  else lift (subscript (PDict resp) (PStr (lit "access_token"))).

Definition auth_headers (token : pyval) : list (pystr * pystr) :=
  [(lit "Authorization", lit "Bearer " ++ py_str token);
   (lit "Content-Type", lit "application/json")].

Definition failure_message (method url : pystr) (r : Response) : pystr :=
  method ++ lit " " ++ url ++ lit " failed: "
    ++ str_of_int (status_code r) ++ lit " " ++ text r.

Definition graph_call (method endpoint : pystr) (payload : option pyval)
    (params : option (list (pystr * pystr))) : M pyval :=
  token <- get_token ;;
  let url := GRAPH_BASE ++ endpoint in
  let headers := auth_headers token in
  r <- http (mkRequest method url headers payload params) ;;
  if negb (ok r)
  then raise (Exception (PStr (failure_message method url r)))
  else if truthy (PStr (text r)) then lift (json r)
  else ret (PDict []).

(** *** Actions (lines 51-107) *)

Definition create_app_body (display_name : pyval) (redirect_uris : list pystr)
    (notes_text : pyval) : pyval :=
  PDict [(lit "displayName", display_name);
         (lit "signInAudience", PStr (lit "AzureADMyOrg"));
         (lit "web", PDict [(lit "redirectUris", PList (map PStr redirect_uris))]);
         (lit "notes", notes_text)].

Definition create_app (display_name : pyval) (redirect_uris : list pystr)
    (notes_text : pyval) : M pyval :=
  graph_call (lit "POST") (lit "/applications")
    (Some (create_app_body display_name redirect_uris notes_text)) None.

Definition add_secret_body : pyval :=
  PDict [(lit "passwordCredential",
          PDict [(lit "displayName", PStr (lit "auto-secret"))])].

Definition add_secret (app_object_id : pyval) : M pyval :=
  token <- get_token ;;
  let url := GRAPH_BASE ++ lit "/applications/" ++ py_str app_object_id
               ++ lit "/addPassword" in
  r <- requests_post url (auth_headers token) add_secret_body ;;
  if negb (ok r) then raise (Exception (PStr (text r)))
  else lift (json r).

Definition create_service_principal (appid : pyval) : M pyval :=
  graph_call (lit "POST") (lit "/servicePrincipals")
    (Some (PDict [(lit "appId", appid); (lit "accountEnabled", PBool true)]))
    None.

Definition user_filter (mailnickname : pystr) : pystr :=
  lit "mailNickname eq '" ++ mailnickname ++ lit "'".

Definition user_params (mailnickname : pystr) : list (pystr * pystr) :=
  [(lit "$filter", user_filter mailnickname);
   (lit "$select", lit "id,displayName,mailNickname")].

Definition no_user_message (mailnickname : pystr) : pystr :=
  lit "No user found with mailNickname='" ++ mailnickname ++ lit "'".

Definition resolve_user_by_mailnickname (mailnickname : pystr) : M pyval :=
  let params := user_params mailnickname in
  result <- graph_call (lit "GET") (lit "/users") None (Some params) ;;
  users <- lift (get_default result (lit "value") (PList [])) ;;
  if negb (truthy users)
  then raise (Exception (PStr (no_user_message mailnickname)))
  else
    first <- lift (subscript users (PInt 0)) ;;
    lift (subscript first (PStr (lit "id"))).

Definition add_owner_body (owner_object_id : pyval) : pyval :=
  PDict [(lit "@odata.id",
          PStr (GRAPH_BASE ++ lit "/directoryObjects/" ++ py_str owner_object_id))].

Definition add_owner (app_object_id owner_object_id : pyval) : M pyval :=
  let body := add_owner_body owner_object_id in
  graph_call (lit "POST")
    (lit "/applications/" ++ py_str app_object_id ++ lit "/owners/$ref")
    (Some body) None.

Definition permissions : list pyval :=
  [PDict [(lit "id", PStr (lit "df021288-bdef-4463-88db-98f22de89214"));
          (lit "type", PStr (lit "Role"))];
   PDict [(lit "id", PStr (lit "e1fe6dd8-ba31-4d61-89e7-88639da4683d"));
          (lit "type", PStr (lit "Scope"))]].

Definition permissions_body : pyval :=
  PDict [(lit "requiredResourceAccess",
          PList [PDict [(lit "resourceAppId",
                         PStr (lit "00000003-0000-0000-c000-000000000000"));
                        (lit "resourceAccess", PList permissions)]])].

Definition add_api_permissions (app_object_id : pyval) : M pyval :=
  graph_call (lit "PATCH") (lit "/applications/" ++ py_str app_object_id)
    (Some permissions_body) None.

Definition update_internal_notes (app_object_id notes : pyval) : M pyval :=
  let body := PDict [(lit "notes", notes)] in
  graph_call (lit "PATCH") (lit "/applications/" ++ py_str app_object_id)
    (Some body) None.

(** *** Main (lines 110-144) *)

(** The status glyphs of the printed lines: U+2705, and U+26A0 U+FE0F. *)
Definition glyph_done : pystr := [9989%N].
Definition glyph_warn : pystr := [9888%N; 65039%N].

Definition NOTES_UPDATE : pystr := lit "Updated notes: now managed by CloudOps".

(** Line 113: [[u.strip() for u in redirect_uris.split(",") if u.strip()]] *)
Definition redirect_uris_list_of (redirect_uris : pystr) : list pystr :=
  flat_map (fun u => if truthy (PStr (strip u)) then [strip u] else [])
           (split comma redirect_uris).

Definition owner_added_line (alias : pyval) (owner_id : pyval) : pystr :=
  glyph_done ++ lit " Owner added (mailNickname=" ++ py_str alias
    ++ lit ", objectId=" ++ py_str owner_id ++ lit ")".

(** Lines 131-136: the conditional on [OWNER_MAILNICKNAME]. *)
Definition owner_block (OWNER_MAILNICKNAME app : pyval) : M unit :=
  if truthy OWNER_MAILNICKNAME
  then
    owner_id <- resolve_user_by_mailnickname (py_str OWNER_MAILNICKNAME) ;;
    app_id <- lift (subscript app (PStr (lit "id"))) ;;
    add_owner app_id owner_id ;;
    print [PStr (owner_added_line OWNER_MAILNICKNAME owner_id)]
  else
    print [PStr (glyph_warn
                 ++ lit " No OWNER_MAILNICKNAME set, skipping owner assignment.")].

Definition main : M unit :=
  let display_name := os_environ_get (lit "APP_DISPLAY_NAME") in
  let redirect_uris := os_environ_get_default (lit "REDIRECT_URIS") (lit "") in
  let redirect_uris_list := redirect_uris_list_of redirect_uris in
  let NOTES_TEXT := os_environ_get (lit "NOTES_TEXT") in
  let OWNER_MAILNICKNAME := os_environ_get (lit "OWNER_MAILNICKNAME") in
  (* Create App *)
  app <- create_app display_name redirect_uris_list NOTES_TEXT ;;
  app_appId <- lift (subscript app (PStr (lit "appId"))) ;;
  print [PStr (glyph_done ++ lit " Application created:"); app_appId] ;;
  (* Add Secret *)
  app_id <- lift (subscript app (PStr (lit "id"))) ;;
  secret <- add_secret app_id ;;
  secretText <- lift (subscript secret (PStr (lit "secretText"))) ;;
  print [PStr (glyph_done ++ lit " Client Secret (save now!):"); secretText] ;;
  (* Create Service Principal *)
  app_appId <- lift (subscript app (PStr (lit "appId"))) ;;
  sp <- create_service_principal app_appId ;;
  sp_id <- lift (subscript sp (PStr (lit "id"))) ;;
  print [PStr (glyph_done ++ lit " Service Principal created:"); sp_id] ;;
  (* Resolve and Add Owner *)
  owner_block OWNER_MAILNICKNAME app ;;
  (* Add API Permissions *)
  app_id <- lift (subscript app (PStr (lit "id"))) ;;
  add_api_permissions app_id ;;
  print [PStr (glyph_done
               ++ lit " API permissions added (Graph User.Read + User.Read.All).")] ;;
  (* Update Internal Notes *)
  app_id <- lift (subscript app (PStr (lit "id"))) ;;
  update_internal_notes app_id (PStr NOTES_UPDATE) ;;
  print [PStr (glyph_done ++ lit " Internal notes updated.")].

(** *** The gateway form of the secret request *)

(** The same POST as [add_secret] sends, issued through [graph_call]: the
    unification the specification proposes. *)
Definition add_secret_via_gateway (app_object_id : pyval) : M pyval :=
  graph_call (lit "POST")
    (lit "/applications/" ++ py_str app_object_id ++ lit "/addPassword")
    (Some add_secret_body) None.

(** *** The requests on the wire *)

(** What [graph_call] hands to [requests.request] once it holds a token. *)
Definition gateway_request (method endpoint : pystr) (payload : option pyval)
    (params : option (list (pystr * pystr))) (token : pyval) : Request :=
  mkRequest method (GRAPH_BASE ++ endpoint) (auth_headers token) payload params.

(** What [add_secret] hands to [requests.post]. *)
Definition secret_request (app_object_id token : pyval) : Request :=
  mkRequest (lit "POST")
    (GRAPH_BASE ++ lit "/applications/" ++ py_str app_object_id
       ++ lit "/addPassword")
    (auth_headers token) (Some add_secret_body) None.

End Script.

Arguments ret {World A} a.
Arguments raise {World A} e.
Arguments lift {World A} r.

(** *** The redirect-URI list in the words of the specification *)

(** Split on commas, trim each piece, discard the pieces that are empty
    after trimming. *)
Definition redirect_uris_spec (config : pystr) : list pystr :=
  filter (fun piece => negb (pystr_eqb piece []))
         (map strip (split comma config)).

(* ================================================================== *)
(** ** Observing a run *)

Fixpoint starts_with (p s : pystr) : bool :=
  match p, s with
  | [], _ => true
  | c :: p', d :: s' => N.eqb c d && starts_with p' s'
  | _ :: _, [] => false
  end.

Definition ends_with (p s : pystr) : bool := starts_with (rev p) (rev s).

(** The operations of the workflow, as a request on the wire shows them. *)
Inductive Step : Type :=
| CreateApplication
| AddSecret
| CreateServicePrincipal
| ResolveOwner
| AddOwner
| AddApiPermissions
| UpdateInternalNotes
| Unknown.

Definition has_key (k : pystr) (body : option pyval) : bool :=
  match body with
  | Some (PDict d) => dict_mem k d
  | _ => false
  end.

Definition classify (rq : Request) : Step :=
  let m := req_method rq in
  let u := req_url rq in
  if pystr_eqb m (lit "GET") then
    if pystr_eqb u (GRAPH_BASE ++ lit "/users") then ResolveOwner else Unknown
  else if pystr_eqb m (lit "POST") then
    if ends_with (lit "/owners/$ref") u then AddOwner
    else if ends_with (lit "/addPassword") u then AddSecret
    else if pystr_eqb u (GRAPH_BASE ++ lit "/applications") then CreateApplication
    else if pystr_eqb u (GRAPH_BASE ++ lit "/servicePrincipals")
         then CreateServicePrincipal
    else Unknown
  else if pystr_eqb m (lit "PATCH") then
    if has_key (lit "requiredResourceAccess") (req_json rq) then AddApiPermissions
    else if has_key (lit "notes") (req_json rq) then UpdateInternalNotes
    else Unknown
  else Unknown.

Definition Step_eqb (a b : Step) : bool :=
  match a, b with
  | CreateApplication, CreateApplication
  | AddSecret, AddSecret
  | CreateServicePrincipal, CreateServicePrincipal
  | ResolveOwner, ResolveOwner
  | AddOwner, AddOwner
  | AddApiPermissions, AddApiPermissions
  | UpdateInternalNotes, UpdateInternalNotes
  | Unknown, Unknown => true
  | _, _ => false
  end.

Fixpoint is_prefix (l1 l2 : list Step) : bool :=
  match l1, l2 with
  | [], _ => true
  | a :: l1', b :: l2' => Step_eqb a b && is_prefix l1' l2'
  | _ :: _, [] => false
  end.

(** The operations a run goes through, in order. *)
Definition steps_of (evs : list Event) : list Step :=
  map classify (http_requests evs).

(** The sequence of a complete run, with and without an owner alias. *)
Definition workflow (with_owner : bool) : list Step :=
  [CreateApplication; AddSecret; CreateServicePrincipal]
    ++ (if with_owner then [ResolveOwner; AddOwner] else [])
    ++ [AddApiPermissions; UpdateInternalNotes].

(** Two outcomes agree when both return the same value or both raise. *)
Definition same_outcome (r1 r2 : result pyval) : Prop :=
  match r1, r2 with
  | Ok a, Ok b => a = b
  | Err _, Err _ => True
  | _, _ => False
  end.

Definition is_ok {A} (r : result A) : bool :=
  match r with Ok _ => true | Err _ => false end.

(** A computation goes through the operations [l]: in every world its
    requests are an initial part of [l], in order, and all of [l] when it
    returns. *)
Definition emits {World A} (m : M World A) (l : list Step) : Prop :=
  forall w : World,
    is_prefix (steps_of (events (m w))) l = true
    /\ (is_ok (res (m w)) = true -> steps_of (events (m w)) = l).

(** Every request a computation sends, in any world, satisfies [P]. *)
Definition sends {World A} (m : M World A) (P : Request -> Prop) : Prop :=
  forall w : World, Forall P (http_requests (events (m w))).

(** What [get_token] makes of the token provider's answer. *)
Definition has_access_token (resp : dict) : bool :=
  dict_mem (lit "access_token") resp.

(** Reading a filter expression: the text between its first two quote
    characters, which is the string literal the expression compares with. *)
Fixpoint take_until (c : N) (s : pystr) : pystr :=
  match s with
  | [] => []
  | d :: s' => if N.eqb d c then [] else d :: take_until c s'
  end.

Fixpoint drop_through (c : N) (s : pystr) : option pystr :=
  match s with
  | [] => None
  | d :: s' => if N.eqb d c then Some s' else drop_through c s'
  end.

Definition first_quoted (s : pystr) : option pystr :=
  match drop_through quote s with
  | Some rest =>
      if existsb (N.eqb quote) rest then Some (take_until quote rest) else None
  | None => None
  end.

Definition count_quotes (s : pystr) : nat :=
  List.length (filter (N.eqb quote) s).

(* ================================================================== *)
(** ** Scripted runs *)

(** A world that answers from two scripts: the token provider's answers
    and the API's answers, each consumed in order. *)
Module Scenario.

Record World : Type := mkWorld {
  tokens : list (result dict);
  replies : list (result Response)
}.

Definition environ (vars : list (pystr * pystr)) (k : pystr) : option pystr :=
  match find (fun kv => pystr_eqb k (fst kv)) vars with
  | Some kv => Some (snd kv)
  | None => None
  end.

Definition runtime (vars : list (pystr * pystr)) : Runtime World :=
  {| os_environ := environ vars;
     acquire_token_for_client := fun _ w =>
       match tokens w with
       | t :: ts => (t, mkWorld ts (replies w))
       | [] => (Err (LibraryError (lit "token endpoint unreachable")), w)
       end;
     requests_request := fun _ w =>
       match replies w with
       | r :: rs => (r, mkWorld (tokens w) rs)
       | [] => (Err (LibraryError (lit "connection refused")), w)
       end;
     container_repr := fun _ => lit "<container>" |}.

(** The JSON text of a value (the strings used here need no escaping). *)
Fixpoint json_text (v : pyval) : pystr :=
  match v with
  | PNone => lit "null"
  | PBool true => lit "true"
  | PBool false => lit "false"
  | PInt z => str_of_int z
  | PStr s => [34%N] ++ s ++ [34%N]
  | PList l =>
      lit "["
        ++ (fix items (l : list pyval) : pystr :=
              match l with
              | [] => []
              | [x] => json_text x
              | x :: l' => json_text x ++ lit ", " ++ items l'
              end) l
        ++ lit "]"
  | PDict d =>
      lit "{"
        ++ (fix members (d : list (pystr * pyval)) : pystr :=
              match d with
              | [] => []
              | [(k, x)] => [34%N] ++ k ++ [34%N] ++ lit ": " ++ json_text x
              | (k, x) :: d' =>
                  [34%N] ++ k ++ [34%N] ++ lit ": " ++ json_text x
                    ++ lit ", " ++ members d'
              end) d
        ++ lit "}"
  end.

(** A success response carrying a JSON value. *)
Definition json_reply (status : Z) (v : pyval) : result Response :=
  Ok (mkResponse true status (json_text v) (Ok v)).

(** 204 No Content: an empty body, which [json()] cannot decode. *)
Definition no_content : result Response :=
  Ok (mkResponse true 204 [] (Err JSONDecodeError)).

(** A 4xx or 5xx response with an error document. *)
Definition error_reply (status : Z) (code : string) : result Response :=
  let v := PDict [(lit "error", PDict [(lit "code", PStr (lit code))])] in
  Ok (mkResponse false status (json_text v) (Ok v)).

Definition good_token : result dict :=
  Ok [(lit "token_type", PStr (lit "Bearer"));
      (lit "expires_in", PInt 3599);
      (lit "access_token", PStr (lit "eyJ0eXAi"))].

Definition bad_token : result dict :=
  Ok [(lit "error", PStr (lit "invalid_client"));
      (lit "error_description", PStr (lit "AADSTS7000215: Invalid client secret"))].

Definition application : pyval :=
  PDict [(lit "id", PStr (lit "obj-7f3a"));
         (lit "appId", PStr (lit "client-91c2"));
         (lit "displayName", PStr (lit "demo-app"))].

Definition secret : pyval :=
  PDict [(lit "displayName", PStr (lit "auto-secret"));
         (lit "secretText", PStr (lit "s3cr3t"))].

Definition service_principal : pyval :=
  PDict [(lit "id", PStr (lit "sp-55d0"));
         (lit "appId", PStr (lit "client-91c2"))].

Definition user (id : string) : pyval :=
  PDict [(lit "id", PStr (lit id));
         (lit "displayName", PStr (lit "J Doe"));
         (lit "mailNickname", PStr (lit "jdoe"))].

Definition users (l : list pyval) : pyval := PDict [(lit "value", PList l)].

(** Configurations. *)
Definition base_vars : list (pystr * pystr) :=
  [(lit "TENANT_ID", lit "contoso");
   (lit "CLIENT_ID", lit "mgmt-app");
   (lit "CLIENT_SECRET", lit "mgmt-secret");
   (lit "APP_DISPLAY_NAME", lit "demo-app");
   (lit "REDIRECT_URIS", lit "https://a.example/cb, https://b.example/cb");
   (lit "NOTES_TEXT", lit "created by hand")].

Definition vars_with_owner : list (pystr * pystr) :=
  base_vars ++ [(lit "OWNER_MAILNICKNAME", lit "jdoe")].

(** A complete run with the owner alias "jdoe" resolving to "u-123". *)
Definition full_run : World :=
  mkWorld (repeat good_token 7)
          [json_reply 201 application;
           json_reply 200 secret;
           json_reply 201 service_principal;
           json_reply 200 (users [user "u-123"]);
           no_content;
           no_content;
           no_content].

(** A complete run without an owner alias. *)
Definition run_without_owner : World :=
  mkWorld (repeat good_token 5)
          [json_reply 201 application;
           json_reply 200 secret;
           json_reply 201 service_principal;
           no_content;
           no_content].

(** The alias matches nobody. *)
Definition run_no_user : World :=
  mkWorld (repeat good_token 7)
          [json_reply 201 application;
           json_reply 200 secret;
           json_reply 201 service_principal;
           json_reply 200 (users [])].

(** The token endpoint refuses the credentials. *)
Definition run_bad_credentials : World :=
  mkWorld [bad_token] [json_reply 201 application].

(** The world as the conditional on the owner alias finds it in
    [full_run]. *)
Definition at_owner_block : World :=
  mkWorld (repeat good_token 4)
          [json_reply 200 (users [user "u-123"]);
           no_content;
           no_content;
           no_content].

(** The world the lookup leaves in [at_owner_block]. *)
Definition after_lookup : World :=
  mkWorld (repeat good_token 3) [no_content; no_content; no_content].

(** One call answered with 404. *)
Definition not_found : Response :=
  mkResponse false 404
    (json_text (PDict [(lit "error",
                        PDict [(lit "code", PStr (lit "Request_ResourceNotFound"))])]))
    (Ok (PDict [(lit "error",
                 PDict [(lit "code", PStr (lit "Request_ResourceNotFound"))])])).

Definition run_not_found : World := mkWorld [good_token] [Ok not_found].

(** One call answered with an empty body. *)
Definition run_empty_body : World := mkWorld [good_token] [no_content].

Definition rt_owner : Runtime World := runtime vars_with_owner.
Definition rt_plain : Runtime World := runtime base_vars.

End Scenario.

(* ================================================================== *)
(** ** Further observations of a run *)

Definition token_requests (evs : list Event) : list TokenRequest :=
  flat_map (fun e => match e with EvToken t => [t] | _ => [] end) evs.

(** Every HTTP request of the log comes right after a token request;
    [fresh] tells whether the event before the log was one. *)
Fixpoint authenticated (fresh : bool) (evs : list Event) : bool :=
  match evs with
  | [] => true
  | EvToken _ :: l => authenticated true l
  | EvHttp _ :: l => fresh && authenticated false l
  | EvPrint _ :: l => authenticated false l
  end.

(** The log of a computation satisfies [Q] in every world. *)
Definition traces {World A} (m : M World A) (Q : list Event -> Prop) : Prop :=
  forall w : World, Q (events (m w)).

(** The log of a computation satisfies [Q] whenever it returns. *)
Definition completes {World A} (m : M World A) (Q : list Event -> Prop) : Prop :=
  forall w : World, is_ok (res (m w)) = true -> Q (events (m w)).

Definition allowed_method (m : pystr) : bool :=
  pystr_eqb m (lit "GET") || pystr_eqb m (lit "POST") || pystr_eqb m (lit "PATCH").

(** How a request refers to the application [app] that the creation step
    returned, by the operation it performs. *)
Definition addressing {World} (rt : Runtime World) (app : pyval) (rq : Request)
    : Prop :=
  match classify rq with
  | AddSecret =>
      exists app_id,
        subscript app (PStr (lit "id")) = Ok app_id
        /\ req_url rq = GRAPH_BASE ++ lit "/applications/" ++ py_str rt app_id
                          ++ lit "/addPassword"
  | AddOwner =>
      exists app_id,
        subscript app (PStr (lit "id")) = Ok app_id
        /\ req_url rq = GRAPH_BASE ++ lit "/applications/" ++ py_str rt app_id
                          ++ lit "/owners/$ref"
  | AddApiPermissions | UpdateInternalNotes =>
      exists app_id,
        subscript app (PStr (lit "id")) = Ok app_id
        /\ req_url rq = GRAPH_BASE ++ lit "/applications/" ++ py_str rt app_id
  | CreateServicePrincipal =>
      exists client_id,
        subscript app (PStr (lit "appId")) = Ok client_id
        /\ req_json rq = Some (PDict [(lit "appId", client_id);
                                      (lit "accountEnabled", PBool true)])
  | _ => True
  end.

(** A redirect URI as the list of line 113 can hold one: not empty, without
    a comma, and without whitespace at either end. *)
Definition clean (u : pystr) : bool :=
  negb (existsb (N.eqb comma) u)
  && match u with [] => false | c :: _ => negb (isspace c) end
  && match rev u with [] => false | c :: _ => negb (isspace c) end.

(** A piece of the configured string: a URI between two runs of
    whitespace. *)
Definition padded (piece : pystr * pystr * pystr) : pystr :=
  let '(before, u, after) := piece in before ++ u ++ after.

Definition uri_of (piece : pystr * pystr * pystr) : pystr :=
  let '(_, u, _) := piece in u.

Definition well_padded (piece : pystr * pystr * pystr) : bool :=
  let '(before, u, after) := piece in
  forallb isspace before && clean u && forallb isspace after.







(** Further scripted worlds. *)
Module Cases.

Import Scenario.



(** The lookup is answered 200 with an empty body. *)
Definition lookup_empty_body : World :=
  mkWorld (repeat good_token 2)
          [Ok (mkResponse true 200 [] (Err JSONDecodeError)); no_content].

(** The matching user comes without an id. *)
Definition lookup_no_id : World :=
  mkWorld (repeat good_token 2)
          [json_reply 200 (users [PDict [(lit "mailNickname", PStr (lit "jdoe"))]]);
           no_content].

(** The connection drops on the first request. *)
Definition run_connection_lost : World :=
  mkWorld [good_token] [Err (LibraryError (lit "ConnectionError"))].

(** The token library itself raises. *)
Definition run_provider_raises : World :=
  mkWorld [Err (LibraryError (lit "ValueError"))] [json_reply 201 application].


(** Two users carry the alias. *)
Definition lookup_two_matches : World :=
  mkWorld (repeat good_token 2)
          [json_reply 200 (users [user "u-123"; user "u-999"]); no_content].

(** Two URIs with whitespace around them. *)
Definition two_pieces : list (pystr * pystr * pystr) :=
  [(lit " ", lit "https://a.example/cb", lit "");
   (lit "", lit "https://b.example/cb", lit "  ")].

(** No variable is set at all. *)
Definition rt_unset : Runtime World := runtime [].

Definition run_unset : World := mkWorld [good_token] [error_reply 400 "Request_BadRequest"].

End Cases.

(* ================================================================== *)
(** ** Strings: literals, splitting and trimming *)

Arguments lit : simpl never.

Lemma pystr_eqb_refl (s : pystr) : pystr_eqb s s = true.
Proof.
  induction s as [|c s IH]; simpl; [reflexivity|].
  now rewrite N.eqb_refl, IH.
Qed.

Lemma pystr_eqb_eq (s t : pystr) : pystr_eqb s t = true <-> s = t.
Proof.
  split; [|intros ->; apply pystr_eqb_refl].
  revert t; induction s as [|c s IH]; intros [|d t]; simpl; try discriminate; auto.
  rewrite andb_true_iff, N.eqb_eq. intros [-> H]. f_equal. now apply IH.
Qed.

Lemma truthy_PStr (s : pystr) : truthy (PStr s) = negb (pystr_eqb s []).
Proof. now destruct s. Qed.

Lemma split_not_nil (sep : N) (s : pystr) : split sep s <> [].
Proof.
  destruct s as [|c s]; simpl; [discriminate|].
  destruct (N.eqb c sep); [discriminate|].
  destruct (split sep s); discriminate.
Qed.

(** Joining the pieces with the separator gives the string back. *)
Lemma join_split (sep : N) (s : pystr) : join sep (split sep s) = s.
Proof.
  induction s as [|c s IH]; [reflexivity|].
  simpl. destruct (N.eqb c sep) eqn:E.
  - apply N.eqb_eq in E; subst c.
    pose proof (split_not_nil sep s) as Hn.
    destruct (split sep s) as [|p l]; [contradiction|].
    simpl in *. now rewrite IH.
  - pose proof (split_not_nil sep s) as Hn.
    destruct (split sep s) as [|p l]; [contradiction|].
    destruct l as [|q l]; simpl in *; now rewrite <- IH.
Qed.

Lemma split_no_sep (sep : N) (s : pystr) :
  Forall (fun piece => ~ In sep piece) (split sep s).
Proof.
  induction s as [|c s IH]; simpl.
  - constructor; [intros []|constructor].
  - destruct (N.eqb c sep) eqn:E.
    + constructor; [intros []|exact IH].
    + destruct (split sep s) as [|p l]; [repeat constructor; simpl|].
      * intros [->|[]]. now rewrite N.eqb_refl in E.
      * inversion IH as [|? ? Hp Hl]; subst. constructor; [|exact Hl].
        simpl. intros [->|H]; [now rewrite N.eqb_refl in E|now apply Hp].
Qed.

Lemma lstrip_decompose (s : pystr) :
  exists a, s = a ++ lstrip s /\ forallb isspace a = true.
Proof.
  induction s as [|c s [a [Ha Hs]]]; [now exists []|].
  simpl. destruct (isspace c) eqn:E.
  - exists (c :: a). simpl. rewrite E, Hs. split; [now f_equal|reflexivity].
  - now exists [].
Qed.

Lemma lstrip_head (s : pystr) (c : N) (t : pystr) :
  lstrip s = c :: t -> isspace c = false.
Proof.
  induction s as [|d s IH]; simpl; [discriminate|].
  destruct (isspace d) eqn:E; [exact IH|].
  intros H; injection H as -> _. exact E.
Qed.

Lemma lstrip_snoc (s : pystr) (c : N) :
  isspace c = false -> lstrip (s ++ [c]) = lstrip s ++ [c].
Proof.
  intros Hc. induction s as [|d s IH]; simpl; [now rewrite Hc|].
  now destruct (isspace d).
Qed.

Lemma rstrip_cons (c : N) (s : pystr) :
  isspace c = false -> rstrip (c :: s) = c :: rstrip s.
Proof.
  intros Hc. unfold rstrip. simpl.
  now rewrite lstrip_snoc, rev_app_distr.
Qed.

Lemma rstrip_decompose (s : pystr) :
  exists b, s = rstrip s ++ b /\ forallb isspace b = true.
Proof.
  unfold rstrip. destruct (lstrip_decompose (rev s)) as [a [Ha Hs]].
  exists (rev a). split.
  - rewrite <- rev_app_distr, <- Ha. now rewrite rev_involutive.
  - rewrite forallb_forall in *. intros x Hx. apply Hs. now apply in_rev.
Qed.

Lemma rstrip_last (s : pystr) (t : pystr) (c : N) :
  rstrip s = t ++ [c] -> isspace c = false.
Proof.
  unfold rstrip. intros H.
  apply (f_equal (@rev N)) in H. rewrite rev_involutive, rev_app_distr in H.
  simpl in H. now apply lstrip_head in H.
Qed.

(** [strip] removes a run of whitespace at each end, and only that. *)
Lemma strip_decompose (s : pystr) :
  exists a b, s = a ++ strip s ++ b
              /\ forallb isspace a = true /\ forallb isspace b = true.
Proof.
  destruct (lstrip_decompose s) as [a [Ha Hsa]].
  destruct (rstrip_decompose (lstrip s)) as [b [Hb Hsb]].
  exists a, b. unfold strip. now rewrite <- Hb.
Qed.

Lemma strip_head (s : pystr) (c : N) (t : pystr) :
  strip s = c :: t -> isspace c = false.
Proof.
  unfold strip. destruct (lstrip s) as [|d u] eqn:E; [discriminate|].
  pose proof (lstrip_head _ E) as Hd.
  rewrite rstrip_cons by exact Hd. intros H; injection H as -> _. exact Hd.
Qed.

Lemma strip_last (s : pystr) (t : pystr) (c : N) :
  strip s = t ++ [c] -> isspace c = false.
Proof. apply rstrip_last. Qed.

Lemma strip_no_sep (sep : N) (s : pystr) : ~ In sep s -> ~ In sep (strip s).
Proof.
  intros H Hin. apply H.
  destruct (strip_decompose s) as [a [b [E _]]].
  rewrite E. apply in_or_app; right. apply in_or_app; now left.
Qed.

(** The comprehension of line 113 is the filter of the trimmed pieces. *)
Lemma comprehension_filter_map (l : list pystr) :
  flat_map (fun u => if truthy (PStr (strip u)) then [strip u] else []) l
  = filter (fun piece => negb (pystr_eqb piece [])) (map strip l).
Proof.
  induction l as [|u l IH]; [reflexivity|].
  cbn [flat_map map filter]. rewrite truthy_PStr, IH.
  now destruct (negb (pystr_eqb (strip u) [])).
Qed.

Lemma redirect_uris_list_of_spec (config : pystr) :
  redirect_uris_list_of config = redirect_uris_spec config.
Proof. apply comprehension_filter_map. Qed.

Lemma redirect_uris_spec_In (config u : pystr) :
  In u (redirect_uris_spec config) ->
  u <> [] /\ exists piece, In piece (split comma config) /\ u = strip piece.
Proof.
  unfold redirect_uris_spec. rewrite filter_In, in_map_iff.
  intros [[piece [E Hin]] Hne]. split.
  - intros ->. discriminate.
  - exists piece. now split.
Qed.

(* ================================================================== *)
(** ** Running computations *)

Section Runs.

Variable World : Type.
Variable rt : Runtime World.

Lemma res_bind {A B} (m : M World A) (f : A -> M World B) (w : World) :
  res (bind m f w) =
    match res (m w) with
    | Ok a => res (f a (world (m w)))
    | Err e => Err e
    end.
Proof.
  unfold bind. destruct (m w) as [[a|e] w1 ev1]; simpl; [|reflexivity].
  now destruct (f a w1).
Qed.

Lemma events_bind {A B} (m : M World A) (f : A -> M World B) (w : World) :
  events (bind m f w) =
    events (m w) ++
    match res (m w) with
    | Ok a => events (f a (world (m w)))
    | Err _ => []
    end.
Proof.
  unfold bind. destruct (m w) as [[a|e] w1 ev1]; simpl.
  - now destruct (f a w1).
  - now rewrite app_nil_r.
Qed.

Lemma events_lift {A} (r : result A) (w : World) : events (lift r w) = [].
Proof. now destruct r. Qed.

Lemma res_lift {A} (r : result A) (w : World) : res (lift r w) = r.
Proof. now destruct r. Qed.

Lemma world_lift {A} (r : result A) (w : World) : world (lift r w) = w.
Proof. now destruct r. Qed.

Lemma http_requests_app (l1 l2 : list Event) :
  http_requests (l1 ++ l2) = http_requests l1 ++ http_requests l2.
Proof. apply flat_map_app. Qed.

(** *** [get_token] *)

Lemma get_token_run (w : World) :
  get_token rt w =
    match acquire_token_for_client rt (token_request rt) w with
    | (Ok resp, w1) =>
        mkOutcome
          (match dict_lookup (lit "access_token") resp with
           | Some token => Ok token
           | None => Err (Exception (PDict resp))
           end)
          w1 [EvToken (token_request rt)]
    | (Err e, w1) => mkOutcome (Err e) w1 [EvToken (token_request rt)]
    end.
Proof.
  unfold get_token, bind, msal_acquire.
  destruct (acquire_token_for_client rt (token_request rt) w) as [[resp|e] w1];
    [|reflexivity].
  unfold dict_mem. cbn [subscript].
  now destruct (dict_lookup (lit "access_token") resp).
Qed.

Lemma get_token_events (w : World) :
  events (get_token rt w) = [EvToken (token_request rt)].
Proof.
  rewrite get_token_run.
  now destruct (acquire_token_for_client rt (token_request rt) w) as [[resp|e] w1].
Qed.

(** *** [graph_call] *)

Lemma graph_call_run (method endpoint : pystr) (payload : option pyval)
    (params : option (list (pystr * pystr))) (w : World) :
  graph_call rt method endpoint payload params w =
    match get_token rt w with
    | mkOutcome (Ok token) w1 ev1 =>
        let rq := gateway_request rt method endpoint payload params token in
        match requests_request rt rq w1 with
        | (Ok r, w2) =>
            mkOutcome
              (if negb (ok r)
               then Err (Exception
                           (PStr (failure_message method (GRAPH_BASE ++ endpoint) r)))
               else if truthy (PStr (text r)) then json r
               else Ok (PDict []))
              w2 (ev1 ++ [EvHttp rq])
        | (Err e, w2) => mkOutcome (Err e) w2 (ev1 ++ [EvHttp rq])
        end
    | mkOutcome (Err e) w1 ev1 => mkOutcome (Err e) w1 ev1
    end.
Proof.
  unfold graph_call, bind at 1.
  destruct (get_token rt w) as [[token|e] w1 ev1]; [|reflexivity].
  unfold bind, http, gateway_request. cbv zeta.
  destruct (requests_request rt _ w1) as [[r|e] w2]; [|reflexivity].
  destruct (negb (ok r)); [reflexivity|].
  destruct (truthy (PStr (text r))); [|reflexivity].
  now destruct (json r).
Qed.

Lemma graph_call_events (method endpoint : pystr) (payload : option pyval)
    (params : option (list (pystr * pystr))) (w : World) :
  events (graph_call rt method endpoint payload params w) =
    EvToken (token_request rt) ::
    match res (get_token rt w) with
    | Ok token => [EvHttp (gateway_request rt method endpoint payload params token)]
    | Err _ => []
    end.
Proof.
  rewrite graph_call_run. pose proof (get_token_events w) as Hev.
  destruct (get_token rt w) as [[token|e] w1 ev1]; simpl in *; subst ev1;
    [|reflexivity].
  now destruct (requests_request rt _ w1) as [[r|e] w2].
Qed.

Lemma graph_call_token_failure (method endpoint : pystr) (payload : option pyval)
    (params : option (list (pystr * pystr))) (w : World) (e : exn) :
  res (get_token rt w) = Err e ->
  res (graph_call rt method endpoint payload params w) = Err e.
Proof.
  rewrite graph_call_run.
  destruct (get_token rt w) as [[token|e'] w1 ev1]; simpl; congruence.
Qed.

Lemma graph_call_ok_token (method endpoint : pystr) (payload : option pyval)
    (params : option (list (pystr * pystr))) (w : World) (v : pyval) :
  res (graph_call rt method endpoint payload params w) = Ok v ->
  exists token, res (get_token rt w) = Ok token.
Proof.
  rewrite graph_call_run.
  destruct (get_token rt w) as [[token|e'] w1 ev1]; simpl; [eauto|discriminate].
Qed.

(** *** [add_secret] *)

Lemma add_secret_run (app_object_id : pyval) (w : World) :
  add_secret rt app_object_id w =
    match get_token rt w with
    | mkOutcome (Ok token) w1 ev1 =>
        let rq := secret_request rt app_object_id token in
        match requests_request rt rq w1 with
        | (Ok r, w2) =>
            mkOutcome
              (if negb (ok r) then Err (Exception (PStr (text r))) else json r)
              w2 (ev1 ++ [EvHttp rq])
        | (Err e, w2) => mkOutcome (Err e) w2 (ev1 ++ [EvHttp rq])
        end
    | mkOutcome (Err e) w1 ev1 => mkOutcome (Err e) w1 ev1
    end.
Proof.
  unfold add_secret, bind at 1.
  destruct (get_token rt w) as [[token|e] w1 ev1]; [|reflexivity].
  unfold bind, requests_post, http, secret_request. cbv zeta.
  destruct (requests_request rt _ w1) as [[r|e] w2]; [|reflexivity].
  destruct (negb (ok r)); [reflexivity|].
  now destruct (json r).
Qed.

Lemma add_secret_events (app_object_id : pyval) (w : World) :
  events (add_secret rt app_object_id w) =
    EvToken (token_request rt) ::
    match res (get_token rt w) with
    | Ok token => [EvHttp (secret_request rt app_object_id token)]
    | Err _ => []
    end.
Proof.
  rewrite add_secret_run. pose proof (get_token_events w) as Hev.
  destruct (get_token rt w) as [[token|e] w1 ev1]; simpl in *; subst ev1;
    [|reflexivity].
  now destruct (requests_request rt _ w1) as [[r|e] w2].
Qed.

Lemma add_secret_ok_token (app_object_id : pyval) (w : World) (v : pyval) :
  res (add_secret rt app_object_id w) = Ok v ->
  exists token, res (get_token rt w) = Ok token.
Proof.
  rewrite add_secret_run.
  destruct (get_token rt w) as [[token|e'] w1 ev1]; simpl; [eauto|discriminate].
Qed.

End Runs.

(* ================================================================== *)
(** ** The gateway and the single actions *)

Section Actions.

Variable World : Type.
Variable rt : Runtime World.

(** C7.  A gateway call that holds a token and gets a response [r] raises
    an exception whose message is the method, the full URL, the status code
    and the response text when [r.ok] is false; otherwise it returns what
    [r.json()] gives when the text is not empty, and an empty dict when it
    is. *)
Theorem graph_call_contract (method endpoint : pystr) (payload : option pyval)
    (params : option (list (pystr * pystr))) (w w1 w2 : World)
    (token : pyval) (ev : list Event) (r : Response) :
  get_token rt w = mkOutcome (Ok token) w1 ev ->
  requests_request rt
    (mkRequest method (GRAPH_BASE ++ endpoint) (auth_headers rt token) payload params)
    w1 = (Ok r, w2) ->
  let o := graph_call rt method endpoint payload params w in
  (ok r = false ->
     res o = Err (Exception (PStr (method ++ lit " " ++ (GRAPH_BASE ++ endpoint)
                                     ++ lit " failed: " ++ str_of_int (status_code r)
                                     ++ lit " " ++ text r))))
  /\ (ok r = true -> text r <> [] -> res o = json r)
  /\ (ok r = true -> text r = [] -> res o = Ok (PDict [])).
Proof.
  intros Htok Hreq o. subst o. rewrite graph_call_run, Htok.
  unfold gateway_request. cbv zeta. rewrite Hreq. simpl res.
  repeat split.
  - intros ->. reflexivity.
  - intros -> Hne. simpl. destruct (text r); [contradiction|reflexivity].
  - intros -> ->. reflexivity.
Qed.

(** C3, as the code has it.  [add_secret] and the same POST through the
    gateway emit the same events and leave the same world, and fail alike
    when no token or no response is obtained.  On a response that is not ok
    both raise, [add_secret] with the response text alone and the gateway
    with its full message.  On an ok response with a non-empty text both
    give [r.json()].  On an ok response with an empty text the gateway
    returns an empty dict while [add_secret] gives [r.json()]. *)
Theorem add_secret_vs_gateway (app_object_id : pyval) (w : World) :
  let direct := add_secret rt app_object_id w in
  let gateway := add_secret_via_gateway rt app_object_id w in
  events direct = events gateway
  /\ world direct = world gateway
  /\ match get_token rt w with
     | mkOutcome (Err e) _ _ => res direct = Err e /\ res gateway = Err e
     | mkOutcome (Ok token) w1 _ =>
         match requests_request rt (secret_request rt app_object_id token) w1 with
         | (Err e, _) => res direct = Err e /\ res gateway = Err e
         | (Ok r, _) =>
             if ok r then
               res direct = json r
               /\ res gateway =
                    match text r with [] => Ok (PDict []) | _ => json r end
             else
               res direct = Err (Exception (PStr (text r)))
               /\ res gateway =
                    Err (Exception
                           (PStr (failure_message (lit "POST")
                                    (req_url (secret_request rt app_object_id token))
                                    r)))
         end
     end.
Proof.
  cbv zeta. unfold add_secret_via_gateway.
  rewrite add_secret_run, graph_call_run.
  destruct (get_token rt w) as [[token|e] w1 ev1]; [|auto].
  assert (Hrq : gateway_request rt (lit "POST")
                  (lit "/applications/" ++ py_str rt app_object_id
                     ++ lit "/addPassword")
                  (Some add_secret_body) None token
                = secret_request rt app_object_id token) by reflexivity.
  cbv zeta. rewrite Hrq.
  destruct (requests_request rt (secret_request rt app_object_id token) w1)
    as [[r|e] w2]; [|auto].
  simpl. destruct (ok r); simpl; [|auto].
  destruct (text r); auto.
Qed.

End Actions.

(* ================================================================== *)
(** ** The user lookup *)

Lemma take_until_app_sep (c : N) (s t : pystr) :
  take_until c (s ++ c :: t) = take_until c s.
Proof.
  induction s as [|d s IH]; simpl.
  - now rewrite N.eqb_refl.
  - destruct (N.eqb d c); [reflexivity|now rewrite IH].
Qed.

Lemma take_until_id (c : N) (s : pystr) : take_until c s = s <-> ~ In c s.
Proof.
  induction s as [|d s IH]; simpl.
  - split; [intros _ []|reflexivity].
  - destruct (N.eqb d c) eqn:E.
    + apply N.eqb_eq in E. split; [discriminate|]. intros H. exfalso. auto.
    + apply N.eqb_neq in E. split.
      * intros H. injection H as H. apply IH in H. intros [Hd|Hs]; auto.
      * intros H. f_equal. apply IH. auto.
Qed.

Lemma count_quotes_app (s t : pystr) :
  count_quotes (s ++ t) = count_quotes s + count_quotes t.
Proof. unfold count_quotes. now rewrite filter_app, length_app. Qed.

Lemma first_quoted_user_filter (a : pystr) :
  first_quoted (user_filter a) = Some (take_until quote a).
Proof.
  unfold first_quoted, user_filter.
  change (drop_through quote (lit "mailNickname eq '" ++ a ++ lit "'"))
    with (Some (a ++ lit "'")).
  cbv beta iota. change (lit "'") with [quote].
  rewrite existsb_app.
  change (existsb (N.eqb quote) [quote]) with true.
  now rewrite orb_true_r, take_until_app_sep.
Qed.

Section Lookup.

Variable World : Type.
Variable rt : Runtime World.

(** C10.  The lookup request carries as [$filter] the alias between the
    literal [mailNickname eq '] and a closing quote, unchanged: every quote
    of the alias is a quote of the filter, so the string literal the filter
    opens ends at the first quote of the alias, and is the alias exactly
    when the alias has no quote. *)
Theorem user_filter_verbatim (a : pystr) (w : World) :
  http_requests (events (resolve_user_by_mailnickname rt a w)) =
    match res (get_token rt w) with
    | Ok token =>
        [mkRequest (lit "GET") (GRAPH_BASE ++ lit "/users") (auth_headers rt token)
           None
           (Some [(lit "$filter", lit "mailNickname eq '" ++ a ++ lit "'");
                  (lit "$select", lit "id,displayName,mailNickname")])]
    | Err _ => []
    end
  /\ count_quotes (user_filter a) = 2 + count_quotes a
  /\ first_quoted (user_filter a) = Some (take_until quote a)
  /\ (take_until quote a = a <-> ~ In quote a).
Proof.
  split; [|split; [|split]].
  - unfold resolve_user_by_mailnickname. rewrite events_bind, graph_call_events.
    destruct (res (graph_call rt (lit "GET") (lit "/users") None
                     (Some (user_params a)) w)) as [result|e] eqn:Hres.
    + destruct (graph_call_ok_token _ _ _ _ _ _ Hres) as [token Htok].
      rewrite Htok, events_bind, events_lift, res_lift.
      destruct (get_default result (lit "value") (PList [])) as [users|e];
        [|reflexivity].
      destruct (negb (truthy users)); [reflexivity|].
      rewrite events_bind, events_lift, res_lift.
      destruct (subscript users (PInt 0)); [|reflexivity].
      now rewrite events_lift.
    + rewrite app_nil_r. now destruct (res (get_token rt w)).
  - unfold user_filter. rewrite !count_quotes_app.
    change (count_quotes (lit "mailNickname eq '")) with 1.
    change (count_quotes (lit "'")) with 1. lia.
  - apply first_quoted_user_filter.
  - apply take_until_id.
Qed.

End Lookup.

(* ================================================================== *)
(** ** Recognising the operations *)

Lemma starts_with_app (p t y : pystr) :
  List.length p <= List.length t -> starts_with p (t ++ y) = starts_with p t.
Proof.
  revert t; induction p as [|c p IH]; intros [|d t] H; simpl in *;
    try reflexivity; try lia.
  rewrite IH by lia. reflexivity.
Qed.

Lemma ends_with_tail (p x t : pystr) :
  List.length p <= List.length t -> ends_with p (x ++ t) = ends_with p t.
Proof.
  intros H. unfold ends_with. rewrite rev_app_distr.
  apply starts_with_app. now rewrite !length_rev.
Qed.

Lemma ends_with_tail3 (p a b c t : pystr) :
  List.length p <= List.length t ->
  ends_with p (a ++ b ++ c ++ t) = ends_with p t.
Proof.
  intros H. replace (a ++ b ++ c ++ t) with ((a ++ b ++ c) ++ t)
    by now rewrite <- !app_assoc.
  now apply ends_with_tail.
Qed.

Lemma Step_eqb_refl (s : Step) : Step_eqb s s = true.
Proof. now destruct s. Qed.

Lemma Step_eqb_eq (a b : Step) : Step_eqb a b = true -> a = b.
Proof. now destruct a, b. Qed.

Lemma is_prefix_refl (l : list Step) : is_prefix l l = true.
Proof. induction l as [|a l IH]; simpl; [|rewrite Step_eqb_refl]; auto. Qed.

Lemma is_prefix_app_r (l1 l l' : list Step) :
  is_prefix l1 l = true -> is_prefix l1 (l ++ l') = true.
Proof.
  revert l; induction l1 as [|a l1 IH]; intros [|b l]; simpl; auto;
    try discriminate.
  rewrite !andb_true_iff. intros [Ha Hl]. auto.
Qed.

Lemma is_prefix_app_same (l l1 l2 : list Step) :
  is_prefix (l ++ l1) (l ++ l2) = is_prefix l1 l2.
Proof. induction l as [|a l IH]; simpl; [|rewrite Step_eqb_refl]; auto. Qed.

Lemma is_prefix_In (l1 l2 : list Step) (s : Step) :
  is_prefix l1 l2 = true -> In s l1 -> In s l2.
Proof.
  revert l2; induction l1 as [|a l1 IH]; intros [|b l2]; simpl;
    try discriminate; try tauto.
  rewrite andb_true_iff. intros [Ha Hl] [->|H].
  - left. symmetry. now apply Step_eqb_eq.
  - right. now apply IH.
Qed.

Lemma steps_of_app (l1 l2 : list Event) :
  steps_of (l1 ++ l2) = steps_of l1 ++ steps_of l2.
Proof. unfold steps_of. now rewrite http_requests_app, map_app. Qed.

Section Recognise.

Variable World : Type.
Variable rt : Runtime World.

Lemma classify_create_app (body : option pyval) (token : pyval) :
  classify (gateway_request rt (lit "POST") (lit "/applications") body None token)
  = CreateApplication.
Proof. reflexivity. Qed.

Lemma classify_service_principal (body : option pyval) (token : pyval) :
  classify (gateway_request rt (lit "POST") (lit "/servicePrincipals") body None token)
  = CreateServicePrincipal.
Proof. reflexivity. Qed.

Lemma classify_lookup (params : option (list (pystr * pystr))) (token : pyval) :
  classify (gateway_request rt (lit "GET") (lit "/users") None params token)
  = ResolveOwner.
Proof. reflexivity. Qed.

Lemma classify_secret (app_object_id token : pyval) :
  classify (secret_request rt app_object_id token) = AddSecret.
Proof.
  unfold classify, secret_request. cbn [req_method req_url].
  change (pystr_eqb (lit "POST") (lit "GET")) with false.
  change (pystr_eqb (lit "POST") (lit "POST")) with true. cbv iota.
  rewrite !ends_with_tail3 by (vm_compute; lia).
  reflexivity.
Qed.

Lemma classify_add_owner (app_object_id : pystr) (body : option pyval)
    (token : pyval) :
  classify (gateway_request rt (lit "POST")
              (lit "/applications/" ++ app_object_id ++ lit "/owners/$ref")
              body None token)
  = AddOwner.
Proof.
  unfold classify, gateway_request. cbn [req_method req_url].
  change (pystr_eqb (lit "POST") (lit "GET")) with false.
  change (pystr_eqb (lit "POST") (lit "POST")) with true. cbv iota.
  rewrite !ends_with_tail3 by (vm_compute; lia).
  reflexivity.
Qed.

Lemma classify_permissions (endpoint : pystr) (token : pyval) :
  classify (gateway_request rt (lit "PATCH") endpoint (Some permissions_body)
              None token)
  = AddApiPermissions.
Proof. reflexivity. Qed.

Lemma classify_notes (endpoint : pystr) (notes token : pyval) :
  classify (gateway_request rt (lit "PATCH") endpoint
              (Some (PDict [(lit "notes", notes)])) None token)
  = UpdateInternalNotes.
Proof. reflexivity. Qed.

(** *** The operations of each computation *)

Lemma emits_weaken {A} (m : M World A) (l l' : list Step) :
  emits m l -> l = l' -> emits m l'.
Proof. now intros H <-. Qed.

Lemma emits_bind {A B} (m : M World A) (f : A -> M World B) (l1 l2 : list Step) :
  emits m l1 -> (forall a, emits (f a) l2) -> emits (bind m f) (l1 ++ l2).
Proof.
  intros Hm Hf w. rewrite res_bind, events_bind, steps_of_app.
  destruct (Hm w) as [Hp Hok].
  destruct (res (m w)) as [a|e].
  - rewrite (Hok eq_refl), is_prefix_app_same.
    destruct (Hf a (world (m w))) as [Hp' Hok']. split; [exact Hp'|].
    intros H. now rewrite (Hok' H).
  - simpl steps_of. rewrite app_nil_r. split; [|discriminate].
    now apply is_prefix_app_r.
Qed.

Lemma emits_lift {A} (r : result A) : emits (lift (World := World) r) [].
Proof. intros w. now rewrite events_lift. Qed.

Lemma emits_print (args : list pyval) : emits (print rt args) [].
Proof. intros w. now split. Qed.

Lemma emits_graph_call (method endpoint : pystr) (payload : option pyval)
    (params : option (list (pystr * pystr))) (s : Step) :
  (forall token,
     classify (gateway_request rt method endpoint payload params token) = s) ->
  emits (graph_call rt method endpoint payload params) [s].
Proof.
  intros Hc w. rewrite graph_call_events.
  destruct (res (get_token rt w)) as [token|e] eqn:Htok.
  - unfold steps_of. cbn [http_requests flat_map app map].
    rewrite Hc. cbn [is_prefix]. rewrite Step_eqb_refl.
    split; [reflexivity|]. intros _. reflexivity.
  - split; [reflexivity|].
    now rewrite (graph_call_token_failure _ _ _ _ _ _ Htok).
Qed.

Lemma emits_create_app (display_name : pyval) (uris : list pystr) (notes : pyval) :
  emits (create_app rt display_name uris notes) [CreateApplication].
Proof. apply emits_graph_call. intros; apply classify_create_app. Qed.

Lemma emits_add_secret (app_object_id : pyval) :
  emits (add_secret rt app_object_id) [AddSecret].
Proof.
  intros w. rewrite add_secret_events.
  destruct (res (get_token rt w)) as [token|e] eqn:Htok.
  - unfold steps_of. cbn [http_requests flat_map app map].
    rewrite classify_secret. split; [reflexivity|]. intros _. reflexivity.
  - split; [reflexivity|]. intros H. exfalso.
    destruct (res (add_secret rt app_object_id w)) as [v|x] eqn:Hres;
      [|discriminate].
    destruct (add_secret_ok_token _ _ _ Hres) as [token Htok'].
    congruence.
Qed.

Lemma emits_create_service_principal (appid : pyval) :
  emits (create_service_principal rt appid) [CreateServicePrincipal].
Proof. apply emits_graph_call. intros; apply classify_service_principal. Qed.

Lemma emits_add_owner (app_object_id owner_object_id : pyval) :
  emits (add_owner rt app_object_id owner_object_id) [AddOwner].
Proof. apply emits_graph_call. intros; apply classify_add_owner. Qed.

Lemma emits_add_api_permissions (app_object_id : pyval) :
  emits (add_api_permissions rt app_object_id) [AddApiPermissions].
Proof. apply emits_graph_call. intros; apply classify_permissions. Qed.

Lemma emits_update_internal_notes (app_object_id notes : pyval) :
  emits (update_internal_notes rt app_object_id notes) [UpdateInternalNotes].
Proof. apply emits_graph_call. intros; apply classify_notes. Qed.

End Recognise.

(* ================================================================== *)
(** ** The order of the workflow *)

Section Order.

Variable World : Type.
Variable rt : Runtime World.

Ltac emits_steps :=
  lazymatch goal with
  | |- emits (bind _ _) _ =>
      eapply emits_bind; [emits_steps | intro; cbv beta; emits_steps]
  | |- emits (lift _) _ => apply emits_lift
  | |- emits (print _ _) _ => apply emits_print
  | |- emits (create_app _ _ _ _) _ => apply emits_create_app
  | |- emits (add_secret _ _) _ => apply emits_add_secret
  | |- emits (create_service_principal _ _) _ => apply emits_create_service_principal
  | |- emits (add_owner _ _ _) _ => apply emits_add_owner
  | |- emits (add_api_permissions _ _) _ => apply emits_add_api_permissions
  | |- emits (update_internal_notes _ _ _) _ => apply emits_update_internal_notes
  end.

Lemma emits_resolve_user (mailnickname : pystr) :
  emits (resolve_user_by_mailnickname rt mailnickname) [ResolveOwner].
Proof.
  unfold resolve_user_by_mailnickname. cbv zeta.
  eapply emits_weaken.
  - eapply emits_bind.
    + apply emits_graph_call. intros; apply classify_lookup.
    + intro result. cbv beta. eapply emits_bind; [apply emits_lift|].
      intro users. cbv beta.
      instantiate (1 := []).
      destruct (negb (truthy users)).
      * intros w. now split.
      * eapply emits_weaken; [emits_steps|reflexivity].
  - reflexivity.
Qed.

Lemma emits_owner_block (alias app : pyval) :
  emits (owner_block rt alias app)
        (if truthy alias then [ResolveOwner; AddOwner] else []).
Proof.
  unfold owner_block. destruct (truthy alias).
  - eapply emits_weaken.
    + eapply emits_bind; [apply emits_resolve_user|].
      intro owner_id. cbv beta. emits_steps.
    + reflexivity.
  - apply emits_print.
Qed.

(** Every run goes through the operations of the workflow in order, up to
    the point where it stops. *)
Lemma emits_main :
  emits (main rt)
        (workflow (truthy (os_environ_get rt (lit "OWNER_MAILNICKNAME")))).
Proof.
  unfold main. cbv zeta.
  set (alias := os_environ_get rt (lit "OWNER_MAILNICKNAME")).
  eapply emits_weaken.
  - do 11 (eapply emits_bind; [emits_steps | intro; cbv beta]).
    eapply emits_bind; [apply emits_owner_block | intro; cbv beta].
    emits_steps.
  - unfold workflow. now destruct (truthy alias).
Qed.

End Order.

(* ================================================================== *)
(** ** The owner *)

Section Owner.

Variable World : Type.
Variable rt : Runtime World.

Lemma resolve_user_run (mailnickname : pystr) (w : World) :
  resolve_user_by_mailnickname rt mailnickname w =
    match graph_call rt (lit "GET") (lit "/users") None
            (Some (user_params mailnickname)) w with
    | mkOutcome (Ok result) w1 ev1 =>
        mkOutcome
          (match get_default result (lit "value") (PList []) with
           | Ok users =>
               if negb (truthy users)
               then Err (Exception (PStr (no_user_message mailnickname)))
               else match subscript users (PInt 0) with
                    | Ok first => subscript first (PStr (lit "id"))
                    | Err e => Err e
                    end
           | Err e => Err e
           end)
          w1 ev1
    | mkOutcome (Err e) w1 ev1 => mkOutcome (Err e) w1 ev1
    end.
Proof.
  unfold resolve_user_by_mailnickname. cbv zeta. unfold bind at 1.
  destruct (graph_call rt (lit "GET") (lit "/users") None
              (Some (user_params mailnickname)) w) as [[result|e] w1 ev1];
    [|reflexivity].
  unfold bind, lift, ret, raise.
  destruct (get_default result (lit "value") (PList [])) as [users|e];
    [|now rewrite app_nil_r].
  destruct (negb (truthy users)); [now rewrite app_nil_r|].
  destruct (subscript users (PInt 0)) as [first|e]; [|now rewrite app_nil_r].
  destruct (subscript first (PStr (lit "id"))); now rewrite !app_nil_r.
Qed.

Lemma graph_call_ok_events (method endpoint : pystr) (payload : option pyval)
    (params : option (list (pystr * pystr))) (w : World) (v : pyval) :
  res (graph_call rt method endpoint payload params w) = Ok v ->
  exists token,
    res (get_token rt w) = Ok token
    /\ events (graph_call rt method endpoint payload params w) =
         [EvToken (token_request rt);
          EvHttp (gateway_request rt method endpoint payload params token)].
Proof.
  intros H. destruct (graph_call_ok_token _ _ _ _ _ _ H) as [token Htok].
  exists token. split; [exact Htok|]. now rewrite graph_call_events, Htok.
Qed.

(** C6.  Without an owner alias the run goes from the service principal
    straight to the permissions: its operations are an initial part of the
    five-step sequence, no lookup and no add-owner request is sent, and the
    conditional only prints.  With an alias the operations are an initial
    part of the seven-step sequence, and an add-owner request is sent only
    in a world where the lookup returned an owner id. *)
Theorem owner_steps_follow_the_alias (w : World) :
  let alias := os_environ_get rt (lit "OWNER_MAILNICKNAME") in
  let o := main rt w in
  (truthy alias = false ->
     is_prefix (steps_of (events o))
       [CreateApplication; AddSecret; CreateServicePrincipal;
        AddApiPermissions; UpdateInternalNotes] = true
     /\ ~ In ResolveOwner (steps_of (events o))
     /\ ~ In AddOwner (steps_of (events o))
     /\ (res o = Ok tt ->
         steps_of (events o) =
           [CreateApplication; AddSecret; CreateServicePrincipal;
            AddApiPermissions; UpdateInternalNotes])
     /\ forall app w',
          res (owner_block rt alias app w') = Ok tt
          /\ world (owner_block rt alias app w') = w'
          /\ http_requests (events (owner_block rt alias app w')) = [])
  /\ (truthy alias = true ->
      is_prefix (steps_of (events o))
        [CreateApplication; AddSecret; CreateServicePrincipal;
         ResolveOwner; AddOwner; AddApiPermissions; UpdateInternalNotes] = true
      /\ (res o = Ok tt ->
          steps_of (events o) =
            [CreateApplication; AddSecret; CreateServicePrincipal;
             ResolveOwner; AddOwner; AddApiPermissions; UpdateInternalNotes])
      /\ forall app w',
           In AddOwner (steps_of (events (owner_block rt alias app w'))) ->
           exists owner_id,
             res (resolve_user_by_mailnickname rt (py_str rt alias) w')
             = Ok owner_id).
Proof.
  cbv zeta. destruct (emits_main rt w) as [Hp Hok]. split; intros Ha.
  - rewrite Ha in Hp, Hok. change (workflow false) with
      [CreateApplication; AddSecret; CreateServicePrincipal;
       AddApiPermissions; UpdateInternalNotes] in *.
    split; [exact Hp|]. split; [|split; [|split]].
    + intros Hin. apply (is_prefix_In _ _ _ Hp) in Hin.
      simpl in Hin. intuition discriminate.
    + intros Hin. apply (is_prefix_In _ _ _ Hp) in Hin.
      simpl in Hin. intuition discriminate.
    + intros Hres. apply Hok. now rewrite Hres.
    + intros app w'. unfold owner_block. rewrite Ha. now repeat split.
  - rewrite Ha in Hp, Hok. change (workflow true) with
      [CreateApplication; AddSecret; CreateServicePrincipal;
       ResolveOwner; AddOwner; AddApiPermissions; UpdateInternalNotes] in *.
    split; [exact Hp|]. split.
    + intros Hres. apply Hok. now rewrite Hres.
    + intros app w'. unfold owner_block. rewrite Ha.
      rewrite events_bind, steps_of_app, in_app_iff.
      intros [Hin|Hin].
      * destruct (emits_resolve_user rt
                    (py_str rt (os_environ_get rt (lit "OWNER_MAILNICKNAME"))) w')
          as [Hp' _].
        apply (is_prefix_In _ _ _ Hp') in Hin.
        simpl in Hin. intuition discriminate.
      * destruct (res (resolve_user_by_mailnickname rt _ w')) as [owner_id|e];
          [now exists owner_id|contradiction].
Qed.

End Owner.

Section Resolution.

Variable World : Type.
Variable rt : Runtime World.

(** C2.  When the lookup answers and the users it lists are none, the
    resolution raises "No user found ..." and the conditional stops there:
    its only request is the lookup.  When the list has a first element with
    an id, that id is the owner id, and the add-owner request, sent as soon
    as a token is held, carries as directory reference the base URL, then
    [/directoryObjects/], then that id. *)
Theorem owner_resolution (a : pystr) (app : pyval) (w w1 : World)
    (result users : pyval) (ev1 : list Event) :
  truthy (PStr a) = true ->
  graph_call rt (lit "GET") (lit "/users") None (Some (user_params a)) w
    = mkOutcome (Ok result) w1 ev1 ->
  get_default result (lit "value") (PList []) = Ok users ->
  let block := owner_block rt (PStr a) app w in
  let not_found :=
    Exception (PStr (lit "No user found with mailNickname='" ++ a ++ lit "'")) in
  (truthy users = false ->
     res (resolve_user_by_mailnickname rt a w) = Err not_found
     /\ res block = Err not_found
     /\ steps_of (events block) = [ResolveOwner])
  /\ (forall first rest owner_id app_id,
        users = PList (first :: rest) ->
        subscript first (PStr (lit "id")) = Ok owner_id ->
        subscript app (PStr (lit "id")) = Ok app_id ->
        res (resolve_user_by_mailnickname rt a w) = Ok owner_id
        /\ exists lookup,
             classify lookup = ResolveOwner
             /\ http_requests (events block) =
                  lookup ::
                  match res (get_token rt w1) with
                  | Ok token =>
                      [mkRequest (lit "POST")
                         (GRAPH_BASE ++ lit "/applications/" ++ py_str rt app_id
                            ++ lit "/owners/$ref")
                         (auth_headers rt token)
                         (Some (PDict [(lit "@odata.id",
                                        PStr (GRAPH_BASE ++ lit "/directoryObjects/"
                                                ++ py_str rt owner_id))]))
                         None]
                  | Err _ => []
                  end).
Proof.
  intros Ha Hgc Hget. cbv zeta.
  assert (Hres : res (graph_call rt (lit "GET") (lit "/users") None
                        (Some (user_params a)) w) = Ok result)
    by now rewrite Hgc.
  destruct (graph_call_ok_events _ _ _ _ _ _ Hres) as (token & Htok & Hev).
  rewrite Hgc in Hev. cbn [events] in Hev.
  assert (Hrun := resolve_user_run rt a w). rewrite Hgc, Hget in Hrun.
  unfold owner_block. rewrite Ha. cbn [py_str].
  split.
  - intros Hu. rewrite Hu in Hrun. cbn [negb] in Hrun.
    rewrite res_bind, events_bind, Hrun. cbn [res events].
    repeat split. rewrite app_nil_r, Hev. reflexivity.
  - intros first rest owner_id app_id -> Hid Happ.
    cbn [truthy negb] in Hrun.
    change (subscript (PList (first :: rest)) (PInt 0)) with (Ok first) in Hrun.
    cbv iota in Hrun. rewrite Hid in Hrun.
    split; [now rewrite Hrun|].
    exists (gateway_request rt (lit "GET") (lit "/users") None
              (Some (user_params a)) token).
    split; [reflexivity|].
    rewrite events_bind, Hrun. cbn [res events world].
    rewrite Hev, events_bind, events_lift, res_lift, world_lift, Happ.
    rewrite events_bind. unfold add_owner at 1. cbv zeta.
    rewrite graph_call_events, !http_requests_app.
    cbn [http_requests flat_map List.app].
    destruct (res (get_token rt w1)) as [token1|e] eqn:Htok1.
    + cbn [flat_map List.app]. f_equal.
      destruct (res (add_owner rt app_id owner_id w1)); reflexivity.
    + cbn [flat_map List.app]. f_equal.
      unfold add_owner. now rewrite (graph_call_token_failure _ _ _ _ _ _ Htok1).
Qed.

(** C5.  When the token provider's answer has no access token,
    [get_token] raises with that answer; a gateway call and the secret
    request then raise without sending anything, and the whole run stops at
    its first step with no request sent and nothing printed.  In every
    world a gateway call sends its request only after its token is
    obtained. *)
Theorem missing_access_token_aborts (w w1 : World) (resp : dict) :
  acquire_token_for_client rt (token_request rt) w = (Ok resp, w1) ->
  has_access_token resp = false ->
  get_token rt w
    = mkOutcome (Err (Exception (PDict resp))) w1 [EvToken (token_request rt)]
  /\ (forall method endpoint payload params,
        res (graph_call rt method endpoint payload params w)
          = Err (Exception (PDict resp))
        /\ http_requests (events (graph_call rt method endpoint payload params w))
           = [])
  /\ (forall app_object_id,
        res (add_secret rt app_object_id w) = Err (Exception (PDict resp))
        /\ http_requests (events (add_secret rt app_object_id w)) = [])
  /\ (res (main rt w) = Err (Exception (PDict resp))
      /\ http_requests (events (main rt w)) = []
      /\ printed (events (main rt w)) = [])
  /\ (forall method endpoint payload params w' rq,
        In (EvHttp rq)
           (events (graph_call rt method endpoint payload params w')) ->
        exists token,
          res (get_token rt w') = Ok token
          /\ events (graph_call rt method endpoint payload params w')
             = [EvToken (token_request rt); EvHttp rq]).
Proof.
  intros Hacq Hno.
  assert (Htok : get_token rt w
                 = mkOutcome (Err (Exception (PDict resp))) w1
                     [EvToken (token_request rt)]).
  { rewrite get_token_run, Hacq. unfold has_access_token, dict_mem in Hno.
    destruct (dict_lookup (lit "access_token") resp); [discriminate|reflexivity]. }
  assert (Hgc : forall method endpoint payload params,
             res (graph_call rt method endpoint payload params w)
               = Err (Exception (PDict resp))
             /\ events (graph_call rt method endpoint payload params w)
                = [EvToken (token_request rt)]).
  { intros. rewrite graph_call_events, graph_call_run, Htok. now split. }
  split; [exact Htok|]. split; [|split; [|split]].
  - intros. destruct (Hgc method endpoint payload params) as [Hr He].
    now rewrite Hr, He.
  - intros. rewrite add_secret_events, add_secret_run, Htok. now split.
  - unfold main. cbv zeta. rewrite res_bind, events_bind.
    unfold create_app.
    destruct (Hgc (lit "POST") (lit "/applications")
                (Some (create_app_body (os_environ_get rt (lit "APP_DISPLAY_NAME"))
                         (redirect_uris_list_of
                            (os_environ_get_default rt (lit "REDIRECT_URIS") (lit "")))
                         (os_environ_get rt (lit "NOTES_TEXT")))) None) as [Hr He].
    rewrite Hr, He. now repeat split.
  - intros method endpoint payload params w' rq.
    rewrite graph_call_events.
    destruct (res (get_token rt w')) as [token|e].
    + intros [H|[H|[]]]; [discriminate|]. injection H as <-. now exists token.
    + intros [H|[]]. discriminate.
Qed.

End Resolution.

(* ================================================================== *)
(** ** The first two requests of a run *)

Section Creation.

Variable World : Type.
Variable rt : Runtime World.

Lemma add_secret_token_failure (app_object_id : pyval) (w : World) (e : exn) :
  res (get_token rt w) = Err e ->
  res (add_secret rt app_object_id w) = Err e.
Proof.
  rewrite add_secret_run.
  destruct (get_token rt w) as [[token|e'] w1 ev1]; simpl; congruence.
Qed.

Lemma res_print (args : list pyval) (w : World) : res (print rt args w) = Ok tt.
Proof. reflexivity. Qed.

Lemma http_requests_print (args : list pyval) (w : World) :
  http_requests (events (print rt args w)) = [].
Proof. reflexivity. Qed.

Lemma http_requests_lift {A} (r : result A) (w : World) :
  http_requests (events (lift r w)) = [].
Proof. now rewrite events_lift. Qed.

(** The first request of a run is the creation request. *)
Lemma main_first_request (w : World) (rq : Request) :
  hd_error (http_requests (events (main rt w))) = Some rq ->
  exists token,
    rq = gateway_request rt (lit "POST") (lit "/applications")
           (Some (create_app_body (os_environ_get rt (lit "APP_DISPLAY_NAME"))
                    (redirect_uris_list_of
                       (os_environ_get_default rt (lit "REDIRECT_URIS") (lit "")))
                    (os_environ_get rt (lit "NOTES_TEXT"))))
           None token.
Proof.
  unfold main. cbv zeta. rewrite events_bind, http_requests_app.
  unfold create_app at 1. rewrite graph_call_events.
  destruct (res (get_token rt w)) as [token|e] eqn:Htok.
  - cbn [http_requests flat_map List.app hd_error].
    intros H; injection H as <-. now exists token.
  - unfold create_app. rewrite (graph_call_token_failure _ _ _ _ _ _ Htok).
    discriminate.
Qed.

(** The second request of a run is the secret request, addressed to the
    [id] of the application the first request returned. *)
Lemma main_second_request (w : World) (rq : Request) :
  nth_error (http_requests (events (main rt w))) 1 = Some rq ->
  exists app app_id token,
    res (create_app rt (os_environ_get rt (lit "APP_DISPLAY_NAME"))
           (redirect_uris_list_of
              (os_environ_get_default rt (lit "REDIRECT_URIS") (lit "")))
           (os_environ_get rt (lit "NOTES_TEXT")) w) = Ok app
    /\ subscript app (PStr (lit "id")) = Ok app_id
    /\ rq = secret_request rt app_id token.
Proof.
  unfold main, create_app. cbv zeta.
  rewrite events_bind, http_requests_app.
  destruct (res (graph_call rt (lit "POST") (lit "/applications") _ None w))
    as [app|e] eqn:Hcreate.
  - destruct (graph_call_ok_events _ _ _ _ _ _ Hcreate) as (token0 & _ & Hev0).
    rewrite Hev0.
    cbn [http_requests flat_map List.app nth_error].
    rewrite events_bind, http_requests_app, http_requests_lift, res_lift.
    destruct (subscript app (PStr (lit "appId"))) as [client_id|e];
      [|discriminate].
    cbn [List.app].
    rewrite events_bind, http_requests_app, http_requests_print, res_print.
    cbn [List.app].
    rewrite events_bind, http_requests_app, http_requests_lift, res_lift.
    destruct (subscript app (PStr (lit "id"))) as [app_id|e] eqn:Hid;
      [|discriminate].
    cbn [List.app].
    rewrite events_bind, http_requests_app, add_secret_events.
    destruct (res (get_token rt _)) as [token|e] eqn:Htok.
    + cbn [http_requests flat_map List.app nth_error].
      intros H; injection H as <-. now exists app, app_id, token.
    + rewrite (add_secret_token_failure _ _ Htok). discriminate.
  - rewrite app_nil_r, graph_call_events.
    now destruct (res (get_token rt w)).
Qed.

Lemma secret_step_is_second (l : list Request) (b : bool) (rq : Request) :
  is_prefix (map classify l) (workflow b) = true ->
  In rq l -> classify rq = AddSecret -> nth_error l 1 = Some rq.
Proof.
  intros Hp Hin Hc.
  destruct l as [|r0 [|r1 l]]; [contradiction| |].
  - destruct Hin as [->|[]]. cbn in Hp. rewrite Hc in Hp. discriminate.
  - cbn [map is_prefix workflow List.app] in Hp.
    apply andb_true_iff in Hp as [H0 Hp].
    apply andb_true_iff in Hp as [H1 Hp].
    destruct Hin as [->|[->|Hin]].
    + rewrite Hc in H0. discriminate.
    + reflexivity.
    + exfalso. apply (in_map classify) in Hin. rewrite Hc in Hin.
      apply (is_prefix_In _ _ _ Hp) in Hin.
      destruct b; simpl in Hin; intuition discriminate.
Qed.

(** C8.  In every run, a request that adds a secret is addressed to
    [/applications/<id>/addPassword] where [<id>] is the [id] field of the
    application the creation step returned; when the [appId] field reads
    differently, the URL is not the one built from [appId]. *)
Theorem secret_addressed_by_object_id (w : World) (rq : Request) :
  In rq (http_requests (events (main rt w))) ->
  classify rq = AddSecret ->
  exists app app_id token,
    res (create_app rt (os_environ_get rt (lit "APP_DISPLAY_NAME"))
           (redirect_uris_list_of
              (os_environ_get_default rt (lit "REDIRECT_URIS") (lit "")))
           (os_environ_get rt (lit "NOTES_TEXT")) w) = Ok app
    /\ subscript app (PStr (lit "id")) = Ok app_id
    /\ rq = mkRequest (lit "POST")
              (GRAPH_BASE ++ lit "/applications/" ++ py_str rt app_id
                 ++ lit "/addPassword")
              (auth_headers rt token) (Some add_secret_body) None
    /\ forall client_id,
         subscript app (PStr (lit "appId")) = Ok client_id ->
         py_str rt client_id <> py_str rt app_id ->
         req_url rq <> GRAPH_BASE ++ lit "/applications/" ++ py_str rt client_id
                         ++ lit "/addPassword".
Proof.
  intros Hin Hc.
  destruct (emits_main rt w) as [Hp _].
  pose proof (secret_step_is_second _ _ _ Hp Hin Hc) as Hnth.
  destruct (main_second_request _ Hnth) as (app & app_id & token & Happ & Hid & ->).
  exists app, app_id, token. repeat split; try assumption.
  intros client_id _ Hne Heq. apply Hne.
  cbn [req_url secret_request] in Heq.
  apply app_inv_head in Heq. apply app_inv_head in Heq.
  apply app_inv_tail in Heq. now symmetry.
Qed.

(** C9.  The list line 113 builds from the configured string is the list
    of its comma-separated pieces, each trimmed, without the pieces that
    trimming leaves empty: no element is empty, contains a comma, or starts
    or ends with whitespace; an unset or empty value gives the empty list;
    and the creation request carries that list as its redirect URIs. *)
Theorem redirect_uris_from_configuration (w : World) :
  let config := os_environ_get_default rt (lit "REDIRECT_URIS") (lit "") in
  redirect_uris_list_of config = redirect_uris_spec config
  /\ (forall u, In u (redirect_uris_list_of config) ->
        u <> [] /\ ~ In comma u
        /\ (forall c t, u = c :: t -> isspace c = false)
        /\ (forall t c, u = t ++ [c] -> isspace c = false))
  /\ (os_environ rt (lit "REDIRECT_URIS") = None -> redirect_uris_list_of config = [])
  /\ (os_environ rt (lit "REDIRECT_URIS") = Some [] ->
      redirect_uris_list_of config = [])
  /\ (forall rq,
        hd_error (http_requests (events (main rt w))) = Some rq ->
        req_json rq =
          Some (PDict [(lit "displayName", os_environ_get rt (lit "APP_DISPLAY_NAME"));
                       (lit "signInAudience", PStr (lit "AzureADMyOrg"));
                       (lit "web",
                        PDict [(lit "redirectUris",
                                PList (map PStr (redirect_uris_spec config)))]);
                       (lit "notes", os_environ_get rt (lit "NOTES_TEXT"))])).
Proof.
  cbv zeta. split; [apply redirect_uris_list_of_spec|].
  split; [|split; [|split]].
  - intros u Hu. rewrite redirect_uris_list_of_spec in Hu.
    destruct (redirect_uris_spec_In _ _ Hu) as [Hne [piece [Hin ->]]].
    split; [exact Hne|]. split; [|split].
    + apply strip_no_sep.
      pose proof (split_no_sep comma
                    (os_environ_get_default rt (lit "REDIRECT_URIS") (lit ""))) as Hf.
      rewrite Forall_forall in Hf. now apply Hf.
    + intros c t. apply strip_head.
    + intros t c. apply strip_last.
  - unfold os_environ_get_default. now intros ->.
  - unfold os_environ_get_default. now intros ->.
  - intros rq Hrq. destruct (main_first_request _ Hrq) as [token ->].
    cbn [req_json gateway_request]. now rewrite redirect_uris_list_of_spec.
Qed.

End Creation.

(* ================================================================== *)
(** ** What every request of a run satisfies *)

Section Invariant.

Variable World : Type.
Variable rt : Runtime World.
Variable P : Request -> Prop.

Lemma sends_bind {A B} (m : M World A) (f : A -> M World B) :
  sends m P -> (forall a, sends (f a) P) -> sends (bind m f) P.
Proof.
  intros Hm Hf w. rewrite events_bind, http_requests_app.
  apply Forall_app. split; [apply Hm|].
  destruct (res (m w)) as [a|e]; [apply Hf|constructor].
Qed.

Lemma sends_lift {A} (r : result A) : sends (lift (World := World) r) P.
Proof. intros w. rewrite http_requests_lift. constructor. Qed.

Lemma sends_raise {A} (e : exn) : sends (raise (World := World) (A := A) e) P.
Proof. intros w. constructor. Qed.

Lemma sends_print (args : list pyval) : sends (print rt args) P.
Proof. intros w. constructor. Qed.

Lemma sends_graph_call (method endpoint : pystr) (payload : option pyval)
    (params : option (list (pystr * pystr))) :
  (forall token, P (gateway_request rt method endpoint payload params token)) ->
  sends (graph_call rt method endpoint payload params) P.
Proof.
  intros H w. rewrite graph_call_events.
  destruct (res (get_token rt w)) as [token|e]; repeat constructor. apply H.
Qed.

Lemma sends_add_secret (app_object_id : pyval) :
  (forall token, P (secret_request rt app_object_id token)) ->
  sends (add_secret rt app_object_id) P.
Proof.
  intros H w. rewrite add_secret_events.
  destruct (res (get_token rt w)) as [token|e]; repeat constructor. apply H.
Qed.

End Invariant.

(** Reduces [sends m P] to [P] of the request of each action of [m]. *)
Ltac sends_steps :=
  lazymatch goal with
  | |- sends (bind _ _) _ =>
      apply sends_bind; [sends_steps | intro; cbv beta; sends_steps]
  | |- sends (lift _) _ => apply sends_lift
  | |- sends (raise _) _ => apply sends_raise
  | |- sends (print _ _) _ => apply sends_print
  | |- sends (if ?c then _ else _) _ => destruct c; sends_steps
  | |- sends (graph_call _ _ _ _ _) _ => apply sends_graph_call; intro
  | |- sends (add_secret _ _) _ => apply sends_add_secret; intro
  | |- sends (create_app _ _ _ _) _ => unfold create_app; sends_steps
  | |- sends (create_service_principal _ _) _ =>
      unfold create_service_principal; sends_steps
  | |- sends (resolve_user_by_mailnickname _ _) _ =>
      unfold resolve_user_by_mailnickname; cbv zeta; sends_steps
  | |- sends (add_owner _ _ _) _ => unfold add_owner; cbv zeta; sends_steps
  | |- sends (add_api_permissions _ _) _ => unfold add_api_permissions; sends_steps
  | |- sends (update_internal_notes _ _ _) _ =>
      unfold update_internal_notes; cbv zeta; sends_steps
  | |- sends (owner_block _ _ _) _ => unfold owner_block; sends_steps
  | |- sends (main _) _ => unfold main; cbv zeta; sends_steps
  end.

(* ================================================================== *)
(** ** The last request of a complete run *)

Section Notes.

Variable World : Type.
Variable rt : Runtime World.

Lemma bind_ok_inv {A B} (m : M World A) (f : A -> M World B) (w : World) (b : B) :
  res (bind m f w) = Ok b ->
  exists a,
    res (m w) = Ok a
    /\ res (f a (world (m w))) = Ok b
    /\ events (bind m f w) = events (m w) ++ events (f a (world (m w))).
Proof.
  rewrite res_bind, events_bind.
  destruct (res (m w)) as [a|e]; [|discriminate].
  intros H. now exists a.
Qed.

Ltac ok_step H a Ha :=
  apply bind_ok_inv in H;
  let Hev := fresh "Hev" in
  destruct H as (a & Ha & H & Hev);
  rewrite Hev; clear Hev; cbv beta in H |- *;
  rewrite http_requests_app.

Ltac other_step Hc :=
  exfalso;
  first [ rewrite classify_create_app in Hc
        | rewrite classify_secret in Hc
        | rewrite classify_service_principal in Hc
        | rewrite classify_lookup in Hc
        | rewrite classify_add_owner in Hc
        | rewrite classify_permissions in Hc
        | rewrite classify_notes in Hc ];
  discriminate Hc.

(** C1.  In every run, whatever [NOTES_TEXT] is configured, a request that
    updates the notes carries as its body the notes field set to the fixed
    text.  A run that completes has sent such a request last, to the
    application its first request created with the configured
    [NOTES_TEXT]. *)
Theorem final_notes_fixed (w : World) :
  (forall rq,
     In rq (http_requests (events (main rt w))) ->
     classify rq = UpdateInternalNotes ->
     req_json rq =
       Some (PDict [(lit "notes",
                     PStr (lit "Updated notes: now managed by CloudOps"))]))
  /\ (res (main rt w) = Ok tt ->
      exists app app_id token first earlier,
        res (create_app rt (os_environ_get rt (lit "APP_DISPLAY_NAME"))
               (redirect_uris_list_of
                  (os_environ_get_default rt (lit "REDIRECT_URIS") (lit "")))
               (os_environ_get rt (lit "NOTES_TEXT")) w) = Ok app
        /\ subscript app (PStr (lit "id")) = Ok app_id
        /\ req_json first =
             Some (PDict
                     [(lit "displayName", os_environ_get rt (lit "APP_DISPLAY_NAME"));
                      (lit "signInAudience", PStr (lit "AzureADMyOrg"));
                      (lit "web",
                       PDict [(lit "redirectUris",
                               PList (map PStr
                                        (redirect_uris_list_of
                                           (os_environ_get_default rt
                                              (lit "REDIRECT_URIS") (lit "")))))]);
                      (lit "notes", os_environ_get rt (lit "NOTES_TEXT"))])
        /\ http_requests (events (main rt w)) =
             first :: earlier ++
             [mkRequest (lit "PATCH")
                (GRAPH_BASE ++ lit "/applications/" ++ py_str rt app_id)
                (auth_headers rt token)
                (Some (PDict [(lit "notes",
                               PStr (lit "Updated notes: now managed by CloudOps"))]))
                None]).
Proof.
  split.
  { assert (Hs : sends (main rt)
                   (fun rq =>
                      classify rq = UpdateInternalNotes ->
                      req_json rq =
                        Some (PDict [(lit "notes", PStr NOTES_UPDATE)]))).
    { sends_steps; cbv beta; intros Hc;
        first [reflexivity | other_step Hc]. }
    intros rq Hin. specialize (Hs w). rewrite Forall_forall in Hs.
    now apply Hs. }
  intros H. unfold main, create_app in *. cbv zeta in *.
  ok_step H created Happ.
  ok_step H client_id Hcid.
  ok_step H u1 Hu1.
  ok_step H app_id Hid.
  ok_step H secret Hsecret.
  ok_step H secretText Hst.
  ok_step H u2 Hu2.
  ok_step H client_id' Hcid'.
  ok_step H sp Hsp.
  ok_step H sp_id Hspid.
  ok_step H u3 Hu3.
  ok_step H u4 Hu4.
  ok_step H app_id1 Hid1.
  ok_step H perms Hperms.
  ok_step H u5 Hu5.
  ok_step H app_id2 Hid2.
  ok_step H patched Hnotes.
  rewrite res_lift in Hid, Hid2.
  unfold update_internal_notes in Hnotes. cbv zeta in Hnotes.
  destruct (graph_call_ok_events _ _ _ _ _ _ Hnotes) as (token & _ & Hev).
  unfold update_internal_notes at 1. cbv zeta. rewrite Hev. clear Hev.
  destruct (graph_call_ok_events _ _ _ _ _ _ Happ) as (token0 & _ & Hev0).
  rewrite Hev0. clear Hev0.
  rewrite http_requests_print.
  exists created, app_id2, token.
  eexists. eexists.
  split; [exact Happ|]. split; [exact Hid2|].
  split.
  2:{ cbn [http_requests flat_map List.app]. f_equal.
      rewrite !app_assoc. reflexivity. }
  reflexivity.
Qed.

(** C4.  Whatever the world and the application, the permission step sends
    at most one request, a PATCH of the application whose body is the fixed
    [permissions_body]: one resource entry for the fixed resource
    application id, holding one Role entry and one Scope entry.  It reads
    nothing of the application first, and in every run a request that sets
    [requiredResourceAccess] carries exactly that body. *)
Theorem add_api_permissions_fixed_payload (app_object_id : pyval) (w : World) :
  http_requests (events (add_api_permissions rt app_object_id w)) =
    match res (get_token rt w) with
    | Ok token =>
        [mkRequest (lit "PATCH")
           (GRAPH_BASE ++ lit "/applications/" ++ py_str rt app_object_id)
           (auth_headers rt token) (Some permissions_body) None]
    | Err _ => []
    end
  /\ Forall (fun rq => classify rq = AddApiPermissions
                       -> req_json rq = Some permissions_body)
            (http_requests (events (main rt w)))
  /\ exists role scope,
       permissions_body =
         PDict [(lit "requiredResourceAccess",
                 PList [PDict [(lit "resourceAppId",
                                PStr (lit "00000003-0000-0000-c000-000000000000"));
                               (lit "resourceAccess", PList [role; scope])]])]
       /\ subscript role (PStr (lit "type")) = Ok (PStr (lit "Role"))
       /\ subscript scope (PStr (lit "type")) = Ok (PStr (lit "Scope")).
Proof.
  split; [|split].
  - unfold add_api_permissions. rewrite graph_call_events.
    now destruct (res (get_token rt w)).
  - assert (Hs : sends (main rt)
                   (fun rq => classify rq = AddApiPermissions
                              -> req_json rq = Some permissions_body)).
    { sends_steps; cbv beta; intros Hc;
        first [reflexivity | other_step Hc]. }
    apply Hs.
  - do 2 eexists. split; [reflexivity|]. split; reflexivity.
Qed.

End Notes.

(* ================================================================== *)
(** ** The scripted runs, checked *)

Module Scripted.

Import Scenario.

(** The complete run with owner "jdoe": its last request patches the notes
    of "obj-7f3a" to the fixed text, although "created by hand" was
    configured. *)
Lemma final_notes_fixed_witness :
  res (main rt_owner full_run) = Ok tt
  /\ os_environ_get rt_owner (lit "NOTES_TEXT") = PStr (lit "created by hand")
  /\ exists token earlier,
       http_requests (events (main rt_owner full_run)) =
         earlier ++
         [mkRequest (lit "PATCH")
            (lit "https://graph.microsoft.com/v1.0/applications/obj-7f3a")
            (auth_headers rt_owner token)
            (Some (PDict [(lit "notes",
                           PStr (lit "Updated notes: now managed by CloudOps"))]))
            None].
Proof.
  split; [vm_compute; reflexivity|]. split; [vm_compute; reflexivity|].
  destruct (final_notes_fixed rt_owner full_run) as [_ H].
  destruct H as (app & app_id & token & first & earlier & Happ & Hid & _ & Hreq).
  - vm_compute; reflexivity.
  - vm_compute in Happ. injection Happ as <-.
    vm_compute in Hid. injection Hid as <-.
    exists token, (first :: earlier). exact Hreq.
Defined.

(** The alias "jdoe" resolves to the one user "u-123". *)
Lemma owner_resolution_witness :
  res (resolve_user_by_mailnickname rt_owner (lit "jdoe") at_owner_block)
    = Ok (PStr (lit "u-123"))
  /\ exists lookup add,
       http_requests
         (events (owner_block rt_owner (PStr (lit "jdoe")) application
                    at_owner_block))
         = [lookup; add]
       /\ req_json add =
            Some (PDict [(lit "@odata.id",
                          PStr (GRAPH_BASE ++ lit "/directoryObjects/u-123"))]).
Proof.
  assert (Hgc : graph_call rt_owner (lit "GET") (lit "/users") None
                  (Some (user_params (lit "jdoe"))) at_owner_block
                = mkOutcome (Ok (users [user "u-123"])) after_lookup
                    (events (graph_call rt_owner (lit "GET") (lit "/users") None
                               (Some (user_params (lit "jdoe"))) at_owner_block)))
    by (vm_compute; reflexivity).
  destruct (@owner_resolution _ rt_owner (lit "jdoe") application
              at_owner_block after_lookup (users [user "u-123"])
              (PList [user "u-123"]) _ eq_refl Hgc eq_refl) as [_ H].
  destruct (H (user "u-123") [] (PStr (lit "u-123")) (PStr (lit "obj-7f3a"))
              eq_refl eq_refl eq_refl) as [Hres (lookup & _ & Hreq)].
  split; [exact Hres|].
  exists lookup. eexists. split; [exact Hreq|]. reflexivity.
Defined.

(** An ok response with an empty body: [add_secret] raises where the
    gateway returns an empty dict. *)
Lemma add_secret_not_gateway_on_empty_body :
  res (add_secret rt_plain (PStr (lit "obj-7f3a")) run_empty_body)
    = Err JSONDecodeError
  /\ res (add_secret_via_gateway rt_plain (PStr (lit "obj-7f3a")) run_empty_body)
     = Ok (PDict [])
  /\ ~ same_outcome
         (res (add_secret rt_plain (PStr (lit "obj-7f3a")) run_empty_body))
         (res (add_secret_via_gateway rt_plain (PStr (lit "obj-7f3a"))
                 run_empty_body)).
Proof.
  split; [vm_compute; reflexivity|]. split; [vm_compute; reflexivity|].
  vm_compute. exact (fun H => H).
Qed.

(** The token endpoint answers without an access token. *)
Lemma missing_access_token_aborts_witness :
  has_access_token
    [(lit "error", PStr (lit "invalid_client"));
     (lit "error_description", PStr (lit "AADSTS7000215: Invalid client secret"))]
    = false
  /\ is_ok (res (main rt_owner run_bad_credentials)) = false
  /\ http_requests (events (main rt_owner run_bad_credentials)) = []
  /\ printed (events (main rt_owner run_bad_credentials)) = [].
Proof.
  split; [reflexivity|].
  destruct (missing_access_token_aborts rt_owner run_bad_credentials
              (w1 := mkWorld [] [json_reply 201 application])
              (resp := [(lit "error", PStr (lit "invalid_client"));
                        (lit "error_description",
                         PStr (lit "AADSTS7000215: Invalid client secret"))])
              eq_refl eq_refl)
    as (_ & _ & _ & (Hres & Hreq & Hpr) & _).
  rewrite Hres. repeat split; assumption.
Defined.

(** Without an alias the run has the five steps. *)
Lemma owner_steps_follow_the_alias_witness :
  truthy (os_environ_get rt_plain (lit "OWNER_MAILNICKNAME")) = false
  /\ res (main rt_plain run_without_owner) = Ok tt
  /\ steps_of (events (main rt_plain run_without_owner)) =
       [CreateApplication; AddSecret; CreateServicePrincipal;
        AddApiPermissions; UpdateInternalNotes].
Proof.
  split; [reflexivity|]. split; [vm_compute; reflexivity|].
  destruct (owner_steps_follow_the_alias rt_plain run_without_owner)
    as [H _].
  destruct (H eq_refl) as (_ & _ & _ & Hsteps & _).
  apply Hsteps. vm_compute; reflexivity.
Defined.

(** The permission request of the complete run. *)
Lemma add_api_permissions_fixed_payload_witness :
  exists rq,
    nth_error (http_requests (events (main rt_owner full_run))) 5 = Some rq
    /\ classify rq = AddApiPermissions
    /\ req_json rq = Some permissions_body.
Proof.
  eexists. split; [vm_compute; reflexivity|]. split; [vm_compute; reflexivity|].
  match goal with
  | |- req_json ?rq = _ =>
      destruct (add_api_permissions_fixed_payload rt_owner (PStr (lit "obj-7f3a"))
                  full_run) as (_ & Hall & _);
      rewrite Forall_forall in Hall; apply (Hall rq)
  end.
  - vm_compute. do 5 right. left. reflexivity.
  - vm_compute; reflexivity.
Defined.

(** A lookup answered with 404. *)
Lemma graph_call_contract_witness :
  ok not_found = false
  /\ res (graph_call rt_plain (lit "GET") (lit "/users") None None run_not_found)
     = Err (Exception
              (PStr (lit "GET https://graph.microsoft.com/v1.0/users failed: 404 "
                       ++ text not_found))).
Proof.
  split; [reflexivity|].
  destruct (@graph_call_contract _ rt_plain (lit "GET") (lit "/users") None None
              run_not_found (mkWorld [] [Ok not_found]) (mkWorld [] [])
              (PStr (lit "eyJ0eXAi")) [EvToken (token_request rt_plain)]
              not_found eq_refl eq_refl) as [H _].
  exact (H eq_refl).
Defined.

(** The secret request of the complete run goes to the object id
    "obj-7f3a", not to the client id "client-91c2". *)
Lemma secret_addressed_by_object_id_witness :
  exists rq,
    nth_error (http_requests (events (main rt_owner full_run))) 1 = Some rq
    /\ classify rq = AddSecret
    /\ req_url rq =
         lit "https://graph.microsoft.com/v1.0/applications/obj-7f3a/addPassword".
Proof.
  eexists. split; [vm_compute; reflexivity|]. split; [vm_compute; reflexivity|].
  match goal with
  | |- req_url ?rq = _ =>
      destruct (secret_addressed_by_object_id rt_owner full_run rq)
        as (app & app_id & token & Happ & Hid & Hrq & _)
  end.
  - vm_compute. right. left. reflexivity.
  - vm_compute; reflexivity.
  - reflexivity.
Defined.

(** The configured list of the scripted runs. *)
Lemma redirect_uris_from_configuration_witness :
  redirect_uris_list_of
    (os_environ_get_default rt_owner (lit "REDIRECT_URIS") (lit ""))
    = [lit "https://a.example/cb"; lit "https://b.example/cb"]
  /\ exists rq,
       hd_error (http_requests (events (main rt_owner full_run))) = Some rq
       /\ req_json rq =
            Some (create_app_body (PStr (lit "demo-app"))
                    [lit "https://a.example/cb"; lit "https://b.example/cb"]
                    (PStr (lit "created by hand"))).
Proof.
  split; [vm_compute; reflexivity|].
  eexists. split; [vm_compute; reflexivity|].
  match goal with
  | |- req_json ?rq = _ =>
      destruct (redirect_uris_from_configuration rt_owner full_run)
        as (_ & _ & _ & _ & H);
      rewrite (H rq eq_refl)
  end.
  vm_compute; reflexivity.
Defined.

(** An alias with a quote: the literal of the filter stops at it. *)
Lemma user_filter_verbatim_witness :
  In quote (lit "o'brien")
  /\ first_quoted (user_filter (lit "o'brien")) = Some (lit "o")
  /\ take_until quote (lit "o'brien") <> lit "o'brien".
Proof.
  split; [vm_compute; tauto|].
  destruct (user_filter_verbatim rt_plain (lit "o'brien") run_empty_body)
    as (_ & _ & Hq & Hiff).
  split; [exact Hq|].
  intros H. apply Hiff in H. apply H. vm_compute; tauto.
Defined.

End Scripted.

(* ================================================================== *)
(** ** Writing the redirect URIs and reading them back *)

Lemma split_without_sep (sep : N) (p : pystr) :
  ~ In sep p -> split sep p = [p].
Proof.
  induction p as [|c p IH]; intros H; [reflexivity|].
  cbn [split]. destruct (N.eqb c sep) eqn:E.
  - apply N.eqb_eq in E. exfalso. apply H. now left.
  - rewrite IH; [reflexivity|]. intros Hin. apply H. now right.
Qed.

Lemma split_app_sep (sep : N) (p s : pystr) :
  ~ In sep p -> split sep (p ++ sep :: s) = p :: split sep s.
Proof.
  induction p as [|c p IH]; intros H.
  - cbn [List.app split]. now rewrite N.eqb_refl.
  - cbn [List.app split]. destruct (N.eqb c sep) eqn:E.
    + apply N.eqb_eq in E. exfalso. apply H. now left.
    + rewrite IH; [reflexivity|]. intros Hin. apply H. now right.
Qed.

(** Splitting what [join] built gives the pieces back. *)
Lemma split_join (sep : N) (pieces : list pystr) :
  pieces <> [] ->
  Forall (fun p => ~ In sep p) pieces ->
  split sep (join sep pieces) = pieces.
Proof.
  induction pieces as [|p l IH]; intros Hne Hall; [contradiction|].
  inversion Hall as [|? ? Hp Hl]; subst.
  destruct l as [|q l].
  - cbn [join]. now apply split_without_sep.
  - change (join sep (p :: q :: l)) with (p ++ sep :: join sep (q :: l)).
    rewrite split_app_sep by exact Hp.
    f_equal. apply IH; [discriminate|exact Hl].
Qed.

Lemma lstrip_spaces_app (a s : pystr) :
  forallb isspace a = true -> lstrip (a ++ s) = lstrip s.
Proof.
  induction a as [|c a IH]; [reflexivity|].
  cbn [forallb List.app lstrip]. rewrite andb_true_iff. intros [Hc Ha].
  now rewrite Hc, IH.
Qed.

Lemma lstrip_keeps (c : N) (s : pystr) :
  isspace c = false -> lstrip (c :: s) = c :: s.
Proof. intros H. cbn [lstrip]. now rewrite H. Qed.

Lemma forallb_rev (f : N -> bool) (l : pystr) :
  forallb f l = true -> forallb f (rev l) = true.
Proof.
  rewrite !forallb_forall. intros H x Hx. apply H. now apply in_rev.
Qed.

Lemma clean_parts (u : pystr) :
  clean u = true ->
  ~ In comma u
  /\ (exists c t, u = c :: t /\ isspace c = false)
  /\ (exists c t, rev u = c :: t /\ isspace c = false).
Proof.
  unfold clean. rewrite !andb_true_iff, negb_true_iff.
  intros [[Hc Hh] Hl]. split; [|split].
  - intros Hin.
    assert (existsb (N.eqb comma) u = true)
      by (apply existsb_exists; exists comma; split; [exact Hin|apply N.eqb_refl]).
    congruence.
  - destruct u as [|c t]; [discriminate|].
    exists c, t. split; [reflexivity|]. now apply negb_true_iff.
  - destruct (rev u) as [|c t]; [discriminate|].
    exists c, t. split; [reflexivity|]. now apply negb_true_iff.
Qed.

(** Trimming removes the padding and nothing of a clean URI. *)
Lemma strip_padded (a u b : pystr) :
  forallb isspace a = true -> clean u = true -> forallb isspace b = true ->
  strip (a ++ u ++ b) = u.
Proof.
  intros Ha Hu Hb.
  destruct (clean_parts _ Hu) as (_ & (c & t & -> & Hc) & (d & r & Hrev & Hd)).
  unfold strip. rewrite lstrip_spaces_app by exact Ha.
  change ((c :: t) ++ b) with (c :: (t ++ b)).
  rewrite lstrip_keeps by exact Hc.
  unfold rstrip. change (c :: t ++ b) with ((c :: t) ++ b).
  rewrite rev_app_distr, lstrip_spaces_app by now apply forallb_rev.
  rewrite Hrev, lstrip_keeps by exact Hd.
  now rewrite <- Hrev, rev_involutive.
Qed.

Lemma spaces_no_comma (a : pystr) : forallb isspace a = true -> ~ In comma a.
Proof.
  rewrite forallb_forall. intros H Hin. apply H in Hin. discriminate.
Qed.

Lemma padded_no_comma (piece : pystr * pystr * pystr) :
  well_padded piece = true -> ~ In comma (padded piece).
Proof.
  destruct piece as [[a u] b]. unfold well_padded, padded.
  rewrite !andb_true_iff. intros [[Ha Hu] Hb] Hin.
  apply in_app_or in Hin as [Hin|Hin]; [now apply (spaces_no_comma _ Ha)|].
  apply in_app_or in Hin as [Hin|Hin]; [|now apply (spaces_no_comma _ Hb)].
  now apply (proj1 (clean_parts _ Hu)).
Qed.

Lemma comprehension_padded (pieces : list (pystr * pystr * pystr)) :
  forallb well_padded pieces = true ->
  flat_map (fun u => if truthy (PStr (strip u)) then [strip u] else [])
           (map padded pieces)
  = map uri_of pieces.
Proof.
  induction pieces as [|[[a u] b] l IH]; [reflexivity|].
  cbn [forallb map flat_map]. rewrite andb_true_iff. intros [Hp Hl].
  rewrite (IH Hl). unfold well_padded in Hp.
  apply andb_true_iff in Hp as [Hp Hb]. apply andb_true_iff in Hp as [Ha Hu].
  unfold padded at 1 2. rewrite (strip_padded _ _ _ Ha Hu Hb).
  destruct (clean_parts _ Hu) as (_ & (c & t & -> & _) & _).
  reflexivity.
Qed.

(** X1.  Writing clean URIs, each between any whitespace, with commas
    between them, and reading the string as line 113 does, gives the URIs
    back, in order. *)
Theorem redirect_uris_round_trip (pieces : list (pystr * pystr * pystr)) :
  forallb well_padded pieces = true ->
  redirect_uris_list_of (join comma (map padded pieces)) = map uri_of pieces.
Proof.
  intros H. unfold redirect_uris_list_of.
  destruct pieces as [|p l]; [reflexivity|].
  rewrite split_join.
  - now apply comprehension_padded.
  - discriminate.
  - rewrite Forall_forall. intros x Hx. apply in_map_iff in Hx as [q [<- Hq]].
    apply padded_no_comma.
    rewrite forallb_forall in H. now apply H.
Qed.

(* ================================================================== *)
(** ** The log of a run, block by block *)

Lemma add_secret_ok_events {World} (rt : Runtime World) (app_object_id : pyval)
    (w : World) (v : pyval) :
  res (add_secret rt app_object_id w) = Ok v ->
  exists token,
    res (get_token rt w) = Ok token
    /\ events (add_secret rt app_object_id w) =
         [EvToken (token_request rt);
          EvHttp (secret_request rt app_object_id token)].
Proof.
  intros H. destruct (add_secret_ok_token _ _ _ H) as [token Htok].
  exists token. split; [exact Htok|]. now rewrite add_secret_events, Htok.
Qed.

Section Blocks.

Variable World : Type.
Variable rt : Runtime World.
Variable Q : list Event -> Prop.

Hypothesis Q_nil : Q [].
Hypothesis Q_app : forall l1 l2, Q l1 -> Q l2 -> Q (l1 ++ l2).
Hypothesis Q_print : forall line, Q [EvPrint line].
Hypothesis Q_call : forall rq, Q [EvToken (token_request rt); EvHttp rq].

Lemma completes_bind {A B} (m : M World A) (f : A -> M World B) :
  completes m Q -> (forall a, completes (f a) Q) -> completes (bind m f) Q.
Proof.
  intros Hm Hf w. rewrite res_bind, events_bind.
  specialize (Hm w). destruct (res (m w)) as [a|e]; [|discriminate].
  intros H. apply Q_app; [now apply Hm|now apply Hf].
Qed.

Lemma completes_lift {A} (r : result A) : completes (lift (World := World) r) Q.
Proof. intros w _. now rewrite events_lift. Qed.

Lemma completes_raise {A} (e : exn) :
  completes (raise (World := World) (A := A) e) Q.
Proof. intros w H. discriminate. Qed.

Lemma completes_print (args : list pyval) : completes (print rt args) Q.
Proof. intros w _. apply Q_print. Qed.

Lemma completes_graph_call (method endpoint : pystr) (payload : option pyval)
    (params : option (list (pystr * pystr))) :
  completes (graph_call rt method endpoint payload params) Q.
Proof.
  intros w H.
  destruct (res (graph_call rt method endpoint payload params w)) as [v|e] eqn:E;
    [|discriminate].
  destruct (graph_call_ok_events _ _ _ _ _ _ E) as (token & _ & ->).
  apply Q_call.
Qed.

Lemma completes_add_secret (app_object_id : pyval) :
  completes (add_secret rt app_object_id) Q.
Proof.
  intros w H.
  destruct (res (add_secret rt app_object_id w)) as [v|e] eqn:E; [|discriminate].
  destruct (add_secret_ok_events _ _ _ E) as (token & _ & ->).
  apply Q_call.
Qed.

Ltac completes_steps :=
  lazymatch goal with
  | |- completes (bind _ _) _ =>
      apply completes_bind; [completes_steps | intro; cbv beta; completes_steps]
  | |- completes (lift _) _ => apply completes_lift
  | |- completes (raise _) _ => apply completes_raise
  | |- completes (print _ _) _ => apply completes_print
  | |- completes (if ?c then _ else _) _ => destruct c; completes_steps
  | |- completes (graph_call _ _ _ _ _) _ => apply completes_graph_call
  | |- completes (add_secret _ _) _ => apply completes_add_secret
  end.

(** The log of a run that returns is made of printed lines and of calls,
    each a token request followed by its HTTP request. *)
Lemma completes_main : completes (main rt) Q.
Proof.
  unfold main, owner_block, create_app, create_service_principal,
    resolve_user_by_mailnickname, add_owner, add_api_permissions,
    update_internal_notes.
  cbv zeta. completes_steps.
Qed.

Hypothesis Q_token : Q [EvToken (token_request rt)].

Lemma traces_bind {A B} (m : M World A) (f : A -> M World B) :
  traces m Q -> (forall a, traces (f a) Q) -> traces (bind m f) Q.
Proof.
  intros Hm Hf w. rewrite events_bind.
  apply Q_app; [apply Hm|].
  destruct (res (m w)) as [a|e]; [apply Hf|exact Q_nil].
Qed.

Lemma traces_lift {A} (r : result A) : traces (lift (World := World) r) Q.
Proof. intros w. now rewrite events_lift. Qed.

Lemma traces_raise {A} (e : exn) : traces (raise (World := World) (A := A) e) Q.
Proof. intros w. exact Q_nil. Qed.

Lemma traces_print (args : list pyval) : traces (print rt args) Q.
Proof. intros w. apply Q_print. Qed.

Lemma traces_graph_call (method endpoint : pystr) (payload : option pyval)
    (params : option (list (pystr * pystr))) :
  traces (graph_call rt method endpoint payload params) Q.
Proof.
  intros w. rewrite graph_call_events.
  destruct (res (get_token rt w)); [apply Q_call|apply Q_token].
Qed.

Lemma traces_add_secret (app_object_id : pyval) :
  traces (add_secret rt app_object_id) Q.
Proof.
  intros w. rewrite add_secret_events.
  destruct (res (get_token rt w)); [apply Q_call|apply Q_token].
Qed.

Ltac traces_steps :=
  lazymatch goal with
  | |- traces (bind _ _) _ =>
      apply traces_bind; [traces_steps | intro; cbv beta; traces_steps]
  | |- traces (lift _) _ => apply traces_lift
  | |- traces (raise _) _ => apply traces_raise
  | |- traces (print _ _) _ => apply traces_print
  | |- traces (if ?c then _ else _) _ => destruct c; traces_steps
  | |- traces (graph_call _ _ _ _ _) _ => apply traces_graph_call
  | |- traces (add_secret _ _) _ => apply traces_add_secret
  end.

(** The log of any run is made of printed lines, of calls, and of token
    requests that no HTTP request follows. *)
Lemma traces_main : traces (main rt) Q.
Proof.
  unfold main, owner_block, create_app, create_service_principal,
    resolve_user_by_mailnickname, add_owner, add_api_permissions,
    update_internal_notes.
  cbv zeta. traces_steps.
Qed.

End Blocks.

Lemma authenticated_fresh (evs : list Event) :
  authenticated false evs = true -> authenticated true evs = true.
Proof.
  destruct evs as [|[t|rq|line] l]; simpl; auto. discriminate.
Qed.

Lemma authenticated_app (fresh : bool) (l1 l2 : list Event) :
  authenticated fresh l1 = true -> authenticated false l2 = true ->
  authenticated fresh (l1 ++ l2) = true.
Proof.
  revert fresh. induction l1 as [|[t|rq|line] l1 IH]; intros fresh H1 H2;
    cbn [List.app authenticated] in *.
  - destruct fresh; [now apply authenticated_fresh|exact H2].
  - now apply IH.
  - apply andb_true_iff in H1 as [-> H1]. now rewrite IH.
  - now apply IH.
Qed.

Lemma token_requests_app (l1 l2 : list Event) :
  token_requests (l1 ++ l2) = token_requests l1 ++ token_requests l2.
Proof. apply flat_map_app. Qed.

Section Authentication.

Variable World : Type.
Variable rt : Runtime World.

(** X2.  No token is reused: in the log of every run each HTTP request
    comes right after a token request, all token requests present the same
    configured credentials, and a run that returns has acquired exactly one
    token per operation of the workflow. *)
Theorem every_call_authenticates (w : World) :
  authenticated false (events (main rt w)) = true
  /\ Forall (eq (token_request rt)) (token_requests (events (main rt w)))
  /\ List.length (http_requests (events (main rt w)))
       <= List.length (token_requests (events (main rt w)))
  /\ (res (main rt w) = Ok tt ->
      List.length (token_requests (events (main rt w)))
      = List.length
          (workflow (truthy (os_environ_get rt (lit "OWNER_MAILNICKNAME"))))).
Proof.
  split; [|split; [|split]].
  - apply (traces_main rt (fun evs => authenticated false evs = true));
      try reflexivity.
    intros l1 l2. apply authenticated_app.
  - apply (traces_main rt
             (fun evs => Forall (eq (token_request rt)) (token_requests evs)));
      try (repeat constructor).
    intros l1 l2 H1 H2. rewrite token_requests_app. apply Forall_app. now split.
  - apply (traces_main rt
             (fun evs => List.length (http_requests evs)
                         <= List.length (token_requests evs)));
      try (intros; cbn; lia).
    intros l1 l2 H1 H2.
    rewrite http_requests_app, token_requests_app, !length_app. lia.
  - intros Hres. destruct (emits_main rt w) as [_ Hok].
    rewrite Hres in Hok. specialize (Hok eq_refl).
    rewrite <- Hok. unfold steps_of. rewrite length_map. symmetry.
    apply (completes_main rt
             (fun evs => List.length (http_requests evs)
                         = List.length (token_requests evs)));
      try reflexivity.
    + intros l1 l2 H1 H2.
      rewrite http_requests_app, token_requests_app, !length_app. lia.
    + now rewrite Hres.
Qed.

End Authentication.

(* ================================================================== *)
(** ** The shape of every request *)

Lemma starts_with_self_app (p s : pystr) : starts_with p (p ++ s) = true.
Proof.
  induction p as [|c p IH]; [reflexivity|].
  cbn [List.app starts_with]. now rewrite N.eqb_refl, IH.
Qed.

Ltac decide_methods :=
  repeat match goal with
    | |- context [pystr_eqb (lit ?a) (lit ?b)] =>
        let v := eval vm_compute in (pystr_eqb (lit a) (lit b)) in
        change (pystr_eqb (lit a) (lit b)) with v
    end;
  cbv iota.

Section Shape.

Variable World : Type.
Variable rt : Runtime World.

(** X3.  Every request of every run is a GET, a POST or a PATCH to a URL
    under the API base, with exactly the two headers of the gateway, a
    bearer token and the JSON content type; a GET carries query parameters
    and no body, the others a JSON body and no query parameters.  No other
    method, such as DELETE, is ever sent. *)
Theorem requests_well_formed (w : World) (rq : Request) :
  In rq (http_requests (events (main rt w))) ->
  allowed_method (req_method rq) = true
  /\ starts_with GRAPH_BASE (req_url rq) = true
  /\ (exists token,
        req_headers rq =
          [(lit "Authorization", lit "Bearer " ++ py_str rt token);
           (lit "Content-Type", lit "application/json")])
  /\ (if pystr_eqb (req_method rq) (lit "GET")
      then req_json rq = None /\ req_params rq <> None
      else req_json rq <> None /\ req_params rq = None).
Proof.
  assert (Hs : sends (main rt)
                 (fun rq =>
                    allowed_method (req_method rq) = true
                    /\ starts_with GRAPH_BASE (req_url rq) = true
                    /\ (exists token, req_headers rq = auth_headers rt token)
                    /\ (if pystr_eqb (req_method rq) (lit "GET")
                        then req_json rq = None /\ req_params rq <> None
                        else req_json rq <> None /\ req_params rq = None))).
  { sends_steps; cbv beta;
      cbn [gateway_request secret_request req_method req_url req_headers
             req_json req_params];
      (split; [reflexivity|]);
      (split; [apply starts_with_self_app|]);
      (split; [eexists; reflexivity|]);
      decide_methods; split; first [reflexivity | discriminate]. }
  intros Hin. specialize (Hs w). rewrite Forall_forall in Hs.
  exact (Hs rq Hin).
Qed.

End Shape.

(* ================================================================== *)
(** ** What the later steps take from the creation response *)

Lemma sends_bind_lift {World A B} (P : Request -> Prop) (r : result A)
    (f : A -> M World B) :
  (forall a, r = Ok a -> sends (f a) P) -> sends (bind (lift r) f) P.
Proof.
  intros Hf w. rewrite events_bind, http_requests_app, http_requests_lift, res_lift.
  cbn [List.app]. destruct r as [a|e]; [|constructor].
  rewrite world_lift. now apply Hf.
Qed.

(** As [sends_steps], keeping what each subscript returned. *)
Ltac sends_steps_eq :=
  lazymatch goal with
  | |- sends (bind (lift _) _) _ =>
      apply sends_bind_lift; intros ? ?; cbv beta; sends_steps_eq
  | |- sends (bind _ _) _ =>
      apply sends_bind; [sends_steps_eq | intro; cbv beta; sends_steps_eq]
  | |- sends (lift _) _ => apply sends_lift
  | |- sends (raise _) _ => apply sends_raise
  | |- sends (print _ _) _ => apply sends_print
  | |- sends (if ?c then _ else _) _ => destruct c; sends_steps_eq
  | |- sends (graph_call _ _ _ _ _) _ => apply sends_graph_call; intro
  | |- sends (add_secret _ _) _ => apply sends_add_secret; intro
  | |- sends (create_service_principal _ _) _ =>
      unfold create_service_principal; sends_steps_eq
  | |- sends (resolve_user_by_mailnickname _ _) _ =>
      unfold resolve_user_by_mailnickname; cbv zeta; sends_steps_eq
  | |- sends (add_owner _ _ _) _ => unfold add_owner; cbv zeta; sends_steps_eq
  | |- sends (add_api_permissions _ _) _ =>
      unfold add_api_permissions; sends_steps_eq
  | |- sends (update_internal_notes _ _ _) _ =>
      unfold update_internal_notes; cbv zeta; sends_steps_eq
  | |- sends (owner_block _ _ _) _ => unfold owner_block; sends_steps_eq
  end.

Section Addressing.

Variable World : Type.
Variable rt : Runtime World.

(** X4.  Once the creation step has returned an application, every later
    request of the run that concerns it is built from that response: the
    secret, owner, permission and notes requests are addressed to its [id]
    field, and the service principal request carries its [appId] field with
    the account enabled. *)
Theorem later_steps_use_the_creation_response (w : World) (app : pyval)
    (rq : Request) :
  res (create_app rt (os_environ_get rt (lit "APP_DISPLAY_NAME"))
         (redirect_uris_list_of
            (os_environ_get_default rt (lit "REDIRECT_URIS") (lit "")))
         (os_environ_get rt (lit "NOTES_TEXT")) w) = Ok app ->
  In rq (http_requests (events (main rt w))) ->
  addressing rt app rq.
Proof.
  intros Hcreate. unfold main. cbv zeta.
  rewrite events_bind, http_requests_app, Hcreate.
  unfold create_app in Hcreate.
  destruct (graph_call_ok_events _ _ _ _ _ _ Hcreate) as (token & _ & Hev).
  unfold create_app at 1. rewrite Hev.
  cbn [http_requests flat_map List.app].
  intros [<-|Hin].
  - unfold addressing. now rewrite classify_create_app.
  - match type of Hin with
    | In _ (http_requests (events (?m ?w0))) =>
        assert (Hs : sends m (addressing rt app))
    end.
    { sends_steps_eq; unfold addressing;
        first [ rewrite classify_secret
              | rewrite classify_service_principal
              | rewrite classify_lookup
              | rewrite classify_add_owner
              | rewrite classify_permissions
              | rewrite classify_notes ];
        first [ exact I
              | match goal with
                | H : subscript app _ = Ok ?a |- _ =>
                    exists a; split; [exact H | reflexivity]
                end ]. }
    match type of Hin with
    | In _ (http_requests (events (?m ?w0))) =>
        specialize (Hs w0); rewrite Forall_forall in Hs; exact (Hs rq Hin)
    end.
Qed.

End Addressing.

(* ================================================================== *)
(** ** What a run prints *)



Section Output.

Variable World : Type.
Variable rt : Runtime World.












End Output.

(* ================================================================== *)
(** ** Where a run stops *)

Section Stops.

Variable World : Type.
Variable rt : Runtime World.

Lemma world_bind {A B} (m : M World A) (f : A -> M World B) (w : World) :
  world (bind m f w) =
    match res (m w) with
    | Ok a => world (f a (world (m w)))
    | Err _ => world (m w)
    end.
Proof.
  unfold bind. destruct (m w) as [[a|e] w1 ev1]; simpl; [|reflexivity].
  now destruct (f a w1).
Qed.

(** X6.  When the token library itself raises, the run raises the same
    exception, having done nothing but that one token request. *)
Theorem provider_failure_aborts (w w1 : World) (e : exn) :
  acquire_token_for_client rt (token_request rt) w = (Err e, w1) ->
  res (main rt w) = Err e
  /\ world (main rt w) = w1
  /\ events (main rt w) = [EvToken (token_request rt)].
Proof.
  intros Hacq.
  assert (Htok : get_token rt w = mkOutcome (Err e) w1 [EvToken (token_request rt)])
    by now rewrite get_token_run, Hacq.
  unfold main. cbv zeta. rewrite res_bind, world_bind, events_bind.
  unfold create_app. rewrite graph_call_run, Htok. now repeat split.
Qed.

(** X7.  With a token whose provider answer holds [access_token], a
    gateway call sends exactly one request, in the world the provider
    left, with that token after [Bearer ] in the Authorization header; when
    the HTTP library raises, the call raises the same exception, the request
    having been made. *)
Theorem gateway_uses_the_token (method endpoint : pystr)
    (payload : option pyval) (params : option (list (pystr * pystr)))
    (w w1 : World) (resp : dict) (token : pyval) :
  acquire_token_for_client rt (token_request rt) w = (Ok resp, w1) ->
  dict_lookup (lit "access_token") resp = Some token ->
  let rq :=
    mkRequest method (GRAPH_BASE ++ endpoint)
      [(lit "Authorization", lit "Bearer " ++ py_str rt token);
       (lit "Content-Type", lit "application/json")]
      payload params in
  let o := graph_call rt method endpoint payload params w in
  events o = [EvToken (token_request rt); EvHttp rq]
  /\ world o = snd (requests_request rt rq w1)
  /\ (forall e, fst (requests_request rt rq w1) = Err e -> res o = Err e).
Proof.
  intros Hacq Hkey. cbv zeta.
  assert (Htok : get_token rt w
                 = mkOutcome (Ok token) w1 [EvToken (token_request rt)])
    by now rewrite get_token_run, Hacq, Hkey.
  rewrite graph_call_run, Htok. unfold gateway_request, auth_headers. cbv zeta.
  destruct (requests_request rt _ w1) as [[r|x] w2]; cbn [fst snd res world events].
  - repeat split. discriminate.
  - repeat split. now intros e [= ->].
Qed.



End Stops.

(* ================================================================== *)
(** ** What the lookup makes of its answer *)

Section Answers.

Variable World : Type.
Variable rt : Runtime World.

(** X10.  Once the lookup call has returned [result], the resolution is
    decided by its shape alone and does nothing more: a result that is not
    a dict raises [AttributeError]; a dict without [value] raises the "No
    user found" exception; a dict whose [value] is a non-empty list gives
    what the subscript [id] of the first element gives, whatever follows
    that element. *)
Theorem lookup_result_shapes (a : pystr) (w w1 : World) (result : pyval)
    (ev1 : list Event) :
  graph_call rt (lit "GET") (lit "/users") None (Some (user_params a)) w
    = mkOutcome (Ok result) w1 ev1 ->
  let o := resolve_user_by_mailnickname rt a w in
  world o = w1
  /\ events o = ev1
  /\ ((forall d, result <> PDict d) -> res o = Err AttributeError)
  /\ (forall d,
        result = PDict d -> dict_lookup (lit "value") d = None ->
        res o = Err (Exception
                       (PStr (lit "No user found with mailNickname='" ++ a
                                ++ lit "'"))))
  /\ (forall d first rest,
        result = PDict d ->
        dict_lookup (lit "value") d = Some (PList (first :: rest)) ->
        res o = subscript first (PStr (lit "id"))).
Proof.
  intros Hgc. cbv zeta. rewrite resolve_user_run, Hgc. cbn [res world events].
  split; [reflexivity|]. split; [reflexivity|]. split; [|split].
  - intros Hnd. destruct result; try reflexivity. now destruct (Hnd d).
  - intros d -> Hv. cbn [get_default]. now rewrite Hv.
  - intros d first rest -> Hv. cbn [get_default]. rewrite Hv.
    cbn [truthy negb].
    change (subscript (PList (first :: rest)) (PInt 0)) with (Ok first).
    cbv iota. now destruct (subscript first (PStr (lit "id"))).
Qed.

(** X11.  A lookup answered with a success status and an empty body is
    reported as "No user found": the gateway turns the empty body into an
    empty dict, in which the resolution finds no [value]. *)
Theorem lookup_empty_body_is_no_user (a : pystr) (w w1 w2 : World)
    (token : pyval) (ev : list Event) (r : Response) :
  get_token rt w = mkOutcome (Ok token) w1 ev ->
  requests_request rt
    (mkRequest (lit "GET") (GRAPH_BASE ++ lit "/users") (auth_headers rt token)
       None (Some (user_params a)))
    w1 = (Ok r, w2) ->
  ok r = true ->
  text r = [] ->
  res (resolve_user_by_mailnickname rt a w)
  = Err (Exception (PStr (lit "No user found with mailNickname='" ++ a ++ lit "'"))).
Proof.
  intros Htok Hreq Hok Htext.
  rewrite resolve_user_run, graph_call_run, Htok.
  unfold gateway_request. cbv zeta. rewrite Hreq, Hok, Htext. reflexivity.
Qed.

(** X12.  Nothing of the configuration is checked before use: with no
    variable set at all, the run still asks for a token, for client [None]
    at the authority ending in [/None], and if it gets one it sends the
    creation request with a null name, no redirect URI and null notes; it
    never looks up an owner. *)
Theorem unset_configuration_is_not_checked (w : World) :
  (forall k, os_environ rt k = None) ->
  (exists rest,
     events (main rt w) =
       EvToken (mkTokenRequest PNone PNone
                  (lit "https://login.microsoftonline.com/None")
                  [lit "https://graph.microsoft.com/.default"])
       :: rest)
  /\ (forall rq,
        hd_error (http_requests (events (main rt w))) = Some rq ->
        req_json rq =
          Some (PDict [(lit "displayName", PNone);
                       (lit "signInAudience", PStr (lit "AzureADMyOrg"));
                       (lit "web", PDict [(lit "redirectUris", PList [])]);
                       (lit "notes", PNone)]))
  /\ ~ In ResolveOwner (steps_of (events (main rt w)))
  /\ ~ In AddOwner (steps_of (events (main rt w))).
Proof.
  intros Hunset.
  assert (Hget : forall k, os_environ_get rt k = PNone)
    by (intros k; unfold os_environ_get; now rewrite Hunset).
  split; [|split].
  - unfold main. cbv zeta. rewrite events_bind.
    unfold create_app. rewrite graph_call_events.
    unfold token_request, CLIENT_ID, CLIENT_SECRET, TENANT_ID.
    rewrite !Hget. eexists. reflexivity.
  - intros rq Hrq. destruct (main_first_request _ _ Hrq) as [token ->].
    cbn [req_json gateway_request]. unfold os_environ_get_default.
    rewrite !Hget, Hunset. reflexivity.
  - destruct (emits_main rt w) as [Hp _]. rewrite Hget in Hp.
    change (workflow (truthy PNone)) with
      [CreateApplication; AddSecret; CreateServicePrincipal;
       AddApiPermissions; UpdateInternalNotes] in Hp.
    split; intros Hin; apply (is_prefix_In _ _ _ Hp) in Hin;
      simpl in Hin; intuition discriminate.
Qed.

End Answers.

(* ================================================================== *)
(** ** Further scripted runs, checked *)

Module Checked.

Import Scenario Cases.

Lemma redirect_uris_round_trip_witness :
  join comma (map padded two_pieces)
    = lit " https://a.example/cb,https://b.example/cb  "
  /\ redirect_uris_list_of (lit " https://a.example/cb,https://b.example/cb  ")
     = [lit "https://a.example/cb"; lit "https://b.example/cb"].
Proof.
  split; [vm_compute; reflexivity|].
  exact (redirect_uris_round_trip two_pieces eq_refl).
Defined.

Lemma every_call_authenticates_witness :
  res (main rt_owner full_run) = Ok tt
  /\ List.length (token_requests (events (main rt_owner full_run))) = 7.
Proof.
  split; [vm_compute; reflexivity|].
  destruct (every_call_authenticates rt_owner full_run) as (_ & _ & _ & H).
  apply H. vm_compute; reflexivity.
Defined.

Lemma requests_well_formed_witness :
  exists rq,
    nth_error (http_requests (events (main rt_owner full_run))) 3 = Some rq
    /\ req_method rq = lit "GET"
    /\ req_json rq = None
    /\ req_params rq <> None.
Proof.
  eexists. split; [vm_compute; reflexivity|]. split; [reflexivity|].
  match goal with
  | |- req_json ?rq = _ /\ _ =>
      destruct (requests_well_formed rt_owner full_run rq) as (_ & _ & _ & H)
  end.
  - vm_compute. do 3 right. left. reflexivity.
  - exact H.
Defined.

Lemma later_steps_use_the_creation_response_witness :
  exists rq,
    nth_error (http_requests (events (main rt_owner full_run))) 2 = Some rq
    /\ addressing rt_owner application rq
    /\ classify rq = CreateServicePrincipal.
Proof.
  eexists. split; [vm_compute; reflexivity|]. split; [|vm_compute; reflexivity].
  apply (later_steps_use_the_creation_response rt_owner full_run).
  - vm_compute; reflexivity.
  - vm_compute. do 2 right. left. reflexivity.
Defined.


Lemma provider_failure_aborts_witness :
  res (main rt_owner run_provider_raises) = Err (LibraryError (lit "ValueError"))
  /\ events (main rt_owner run_provider_raises) = [EvToken (token_request rt_owner)].
Proof.
  destruct (@provider_failure_aborts _ rt_owner run_provider_raises
              (mkWorld [] [json_reply 201 application])
              (LibraryError (lit "ValueError")) eq_refl) as (H1 & _ & H2).
  now split.
Defined.

Lemma gateway_uses_the_token_witness :
  res (graph_call rt_plain (lit "GET") (lit "/users") None None run_connection_lost)
  = Err (LibraryError (lit "ConnectionError"))
  /\ List.length
       (http_requests
          (events (graph_call rt_plain (lit "GET") (lit "/users") None None
                     run_connection_lost))) = 1.
Proof.
  destruct (@gateway_uses_the_token _ rt_plain (lit "GET") (lit "/users") None None
              run_connection_lost
              (mkWorld [] [Err (LibraryError (lit "ConnectionError"))])
              [(lit "token_type", PStr (lit "Bearer"));
               (lit "expires_in", PInt 3599);
               (lit "access_token", PStr (lit "eyJ0eXAi"))]
              (PStr (lit "eyJ0eXAi")) eq_refl eq_refl) as (Hev & _ & Hres).
  split; [apply Hres; reflexivity|]. rewrite Hev. reflexivity.
Defined.



Lemma lookup_result_shapes_witness :
  res (resolve_user_by_mailnickname rt_owner (lit "jdoe") lookup_two_matches)
  = Ok (PStr (lit "u-123")).
Proof.
  assert (Hgc : graph_call rt_owner (lit "GET") (lit "/users") None
                  (Some (user_params (lit "jdoe"))) lookup_two_matches
                = mkOutcome (Ok (users [user "u-123"; user "u-999"]))
                    (mkWorld [good_token] [no_content])
                    (events (graph_call rt_owner (lit "GET") (lit "/users") None
                               (Some (user_params (lit "jdoe")))
                               lookup_two_matches)))
    by (vm_compute; reflexivity).
  destruct (@lookup_result_shapes _ rt_owner (lit "jdoe") _ _ _ _ Hgc)
    as (_ & _ & _ & _ & H).
  rewrite (H _ (user "u-123") [user "u-999"] eq_refl eq_refl). reflexivity.
Defined.

Lemma lookup_empty_body_is_no_user_witness :
  res (resolve_user_by_mailnickname rt_owner (lit "jdoe") lookup_empty_body)
  = Err (Exception (PStr (lit "No user found with mailNickname='jdoe'"))).
Proof.
  exact (@lookup_empty_body_is_no_user _ rt_owner (lit "jdoe") lookup_empty_body
           (mkWorld [good_token]
                    [Ok (mkResponse true 200 [] (Err JSONDecodeError)); no_content])
           (mkWorld [good_token] [no_content])
           (PStr (lit "eyJ0eXAi")) [EvToken (token_request rt_owner)]
           (mkResponse true 200 [] (Err JSONDecodeError))
           eq_refl eq_refl eq_refl eq_refl).
Defined.

Lemma unset_configuration_is_not_checked_witness :
  (forall k, os_environ rt_unset k = None)
  /\ ~ In ResolveOwner (steps_of (events (main rt_unset run_unset)))
  /\ exists rq,
       hd_error (http_requests (events (main rt_unset run_unset))) = Some rq
       /\ req_json rq =
            Some (PDict [(lit "displayName", PNone);
                         (lit "signInAudience", PStr (lit "AzureADMyOrg"));
                         (lit "web", PDict [(lit "redirectUris", PList [])]);
                         (lit "notes", PNone)]).
Proof.
  split; [reflexivity|].
  destruct (unset_configuration_is_not_checked rt_unset run_unset
              (fun k => eq_refl)) as (_ & Hfirst & Hno & _).
  split; [exact Hno|].
  eexists. split; [vm_compute; reflexivity|]. apply Hfirst.
  vm_compute; reflexivity.
Defined.

End Checked.
